(** * llm/embeddings.py: collections of embedded items

    A shallow embedding of [llm/embeddings.py].  The [Collection] class is
    modelled as a small state-and-exception monad over a world made of the
    Python object ([self]), the SQLite database behind [self.db] and the
    trace of storage calls issued so far.  The collaborators that live
    outside the file (the embedding model, [llm.encode], [llm.decode],
    [llm.cosine_similarity], the model registry and [json]) are taken as an
    interface, [Externals]. *)

From Stdlib Require Import ZArith Arith List String Bool Lia Strings.Byte.
From Stdlib Require Import Sorting.Sorted Sorting.Permutation.
Import ListNotations.

Local Open Scope string_scope.
Local Open Scope list_scope.

(** ** Python values *)

Module Py.

(** The exceptions the module raises or lets through. *)
Inductive exn : Type :=
| ValueError (msg : string)
| IntegrityError                        (* sqlite3.IntegrityError *).

Inductive result (A : Type) : Type :=
| Ok (a : A)
| Raise (e : exn).
Arguments Ok {A} a.
Arguments Raise {A} e.

(** Truth-value testing, as used by [if x], [x and y], [x or y]. *)
Class Truthy (A : Type) := truthy : A -> bool.

#[global] Instance truthy_str : Truthy string :=
  fun s => match s with EmptyString => false | _ => true end.
#[global] Instance truthy_int : Truthy Z :=
  fun z => negb (Z.eqb z 0).
#[global] Instance truthy_list {A} : Truthy (list A) :=
  fun l => match l with [] => false | _ => true end.
(** [None] is false; otherwise the value decides. *)
#[global] Instance truthy_optional {A} `{Truthy A} : Truthy (option A) :=
  fun o => match o with None => false | Some a => truthy a end.

(** [x or d] for an optional [x]. *)
Definition or_ {A} `{Truthy A} (x : option A) (d : A) : A :=
  match x with
  | Some a => if truthy a then a else d
  | None => d
  end.

(** JSON-serialisable values; a [dict] keeps its insertion order. *)
#[warnings="-register-all"] Inductive Any : Type :=
| PyNone
| PyBool (b : bool)
| PyInt (z : Z)
| PyStr (s : string)
| PyList (l : list Any)
| PyDict (d : list (string * Any)).

Definition Dict : Type := list (string * Any).
Definition bytes : Type := list byte.

(** [itertools.islice(iterator, stop)]: the next [stop] items and the
    advanced iterator; a negative [stop] is refused when the slice is
    built. *)
Definition islice {A} (iterator : list A) (stop : Z)
  : result (list A * list A) :=
  if (stop <? 0)%Z
  then Raise (ValueError
    "Stop argument for islice() must be None or an integer: 0 <= x <= sys.maxsize.")
  else Ok (firstn (Z.to_nat stop) iterator, skipn (Z.to_nat stop) iterator).

End Py.
Import Py.

(** ** State and exceptions

    A computation runs on a world [W]; an exception keeps the world reached
    so far, as the side effects of a Python call survive its [raise]. *)

Module StateExn.

Definition M (W A : Type) : Type := W -> result A * W.

Definition ret {W A} (a : A) : M W A := fun w => (Ok a, w).
Definition raise {W A} (e : exn) : M W A := fun w => (Raise e, w).
Definition bind {W A B} (m : M W A) (k : A -> M W B) : M W B :=
  fun w =>
    match m w with
    | (Ok a, w') => k a w'
    | (Raise e, w') => (Raise e, w')
    end.
Definition get {W} : M W W := fun w => (Ok w, w).
Definition modify {W} (f : W -> W) : M W unit := fun w => (Ok tt, f w).

Module Notations.
Notation "x <- m ;; k" := (bind m (fun x => k))
  (at level 61, m at next level, right associativity).
Notation "m ;; k" := (bind m (fun _ => k))
  (at level 61, right associativity).
End Notations.

End StateExn.
Import StateExn StateExn.Notations.

(** ** The embedding model interface ([llm.models.EmbeddingModel]) *)

Module EmbeddingModel.

Record t (float : Type) : Type := {
  model_id : string;
  batch_size : option Z;
  embed : string -> list float;
  embed_multi : list string -> list (list float)
}.
Arguments model_id {float} _.
Arguments batch_size {float} _.
Arguments embed {float} _ _.
Arguments embed_multi {float} _ _.

(** An object without [__bool__] or [__len__] is always true. *)
#[global] Instance truthy_model {float} : Truthy (t float) := fun _ => true.

End EmbeddingModel.

(** ** What the module imports from [llm] and [json] *)

Class Externals : Type := {
  float : Type;
  (** [float_leb x y]: [x] comes no later than [y] in ascending order, the
      order SQLite's [order by] uses on the score column. *)
  float_leb : float -> float -> bool;
  encode : list float -> bytes;                       (* llm.encode *)
  decode : bytes -> list float;                       (* llm.decode *)
  cosine_similarity : list float -> list float -> float;
  (** [llm.get_embedding_model]; [None] stands for [UnknownModelError]. *)
  get_embedding_model : string -> option (EmbeddingModel.t float);
  json_dumps : Dict -> string;                        (* json.dumps *)
  json_loads : string -> Dict                         (* json.loads *)
}.

(** ** Query results *)

Module Entry.
Section WithExternals.
Context {X : Externals}.

Record t : Type := {
  id : string;
  score : option float;
  content : option string;
  metadata : option Dict
}.

End WithExternals.
End Entry.

(** ** The two tables *)

Module CollectionRow.
Record t : Type := { id : Z; name : string; model : string }.
End CollectionRow.

Module EmbeddingRow.
Record t : Type := {
  collection_id : Z;
  id : string;
  embedding : bytes;
  content : option string;
  metadata : option string
}.
End EmbeddingRow.

(** [collections = None]: the schema has not been created yet (the
    [embeddings] table is created by the same migrations). *)
Record Database : Type := {
  collections : option (list CollectionRow.t);
  embeddings : list EmbeddingRow.t
}.

(** The storage calls a method can issue, in the order of the source. *)
Inductive Event : Type :=
| TableExists                                   (* db["collections"].exists() *)
| ApplyMigrations                               (* embeddings_migrations.apply *)
| SelectCollection (name : string)              (* rows_where("name = ?") *)
| InsertCollection (name model : string)        (* db["collections"].insert *)
| InsertEmbedding (row : EmbeddingRow.t)        (* db["embeddings"].insert *)
| InsertAll (rows : list EmbeddingRow.t)        (* db["embeddings"].insert_all *)
| SelectEmbedding (collection_id : Z) (id : string)
| RegisterFunction                              (* db.register_function *)
| SelectSimilar (collection_id : Z) (skip_id : option string) (number : Z).

(** ** The storage engine

    What SQLite (through [sqlite_utils]) does for the calls the module
    makes.  [collections] has an integer primary key [id] and a unique index
    on [name]; [embeddings] has the primary key [(collection_id, id)]. *)

Module Storage.

Definition table (d : Database) : list CollectionRow.t :=
  match collections d with Some rows => rows | None => [] end.

Definition table_exists (d : Database) : bool :=
  match collections d with Some _ => true | None => false end.

(** Idempotent: creates the tables that are missing. *)
Definition apply_migrations (d : Database) : Database :=
  match collections d with
  | Some _ => d
  | None => {| collections := Some []; embeddings := embeddings d |}
  end.

Definition rows_where_name (n : string) (d : Database) : list CollectionRow.t :=
  filter (fun r => String.eqb (CollectionRow.name r) n) (table d).

(** The rowid SQLite gives a new row: one more than the largest in use
    (as long as that one is below the largest 64-bit integer). *)
Definition next_rowid (rows : list CollectionRow.t) : Z :=
  match rows with
  | [] => 1
  | r :: rs =>
      fold_left Z.max (map CollectionRow.id rs) (CollectionRow.id r) + 1
  end%Z.

(** [insert({"name": n, "model": m}).last_pk] *)
Definition insert_collection (n m : string) (d : Database)
  : result Z * Database :=
  if existsb (fun r => String.eqb (CollectionRow.name r) n) (table d)
  then (Raise IntegrityError, d)
  else
    let pk := next_rowid (table d) in
    (Ok pk,
     {| collections :=
          Some (table d ++
                [{| CollectionRow.id := pk; CollectionRow.name := n;
                    CollectionRow.model := m |}]);
        embeddings := embeddings d |}).

Definition same_key (r r' : EmbeddingRow.t) : bool :=
  Z.eqb (EmbeddingRow.collection_id r) (EmbeddingRow.collection_id r')
  && String.eqb (EmbeddingRow.id r) (EmbeddingRow.id r').

(** Rows go in one after the other; the first primary-key clash aborts. *)
Fixpoint insert_rows (rows tbl : list EmbeddingRow.t)
  : option (list EmbeddingRow.t) :=
  match rows with
  | [] => Some tbl
  | r :: rows' =>
      if existsb (same_key r) tbl then None
      else insert_rows rows' (tbl ++ [r])
  end.

(** [insert] and [insert_all]: all the rows land, or none does. *)
Definition insert_all (rows : list EmbeddingRow.t) (d : Database)
  : result unit * Database :=
  match insert_rows rows (embeddings d) with
  | Some tbl => (Ok tt, {| collections := collections d; embeddings := tbl |})
  | None => (Raise IntegrityError, d)
  end.

(** [rows_where("collection_id = ? and id = ?", (cid, i))] *)
Definition rows_where_id (cid : Z) (i : string) (d : Database)
  : list EmbeddingRow.t :=
  filter (fun r => Z.eqb (EmbeddingRow.collection_id r) cid
                   && String.eqb (EmbeddingRow.id r) i)
         (embeddings d).

Section Query.
Context {X : Externals}.

(** A selected row with the value of its [score] column. *)
Definition Scored : Type := (EmbeddingRow.t * float)%type.

(** [where collection_id = ?] and, when given, [and id != ?].  The
    collection id is bound as text, [str(self.id())]; the column's integer
    affinity turns it back into the integer before comparing. *)
Definition where_ (cid : Z) (skip_id : option string) (r : EmbeddingRow.t)
  : bool :=
  Z.eqb (EmbeddingRow.collection_id r) cid
  && match skip_id with
     | Some s => negb (String.eqb (EmbeddingRow.id r) s)
     | None => true
     end.

Fixpoint insert_desc (x : Scored) (l : list Scored) : list Scored :=
  match l with
  | [] => [x]
  | y :: l' =>
      if float_leb (snd y) (snd x) then x :: y :: l'
      else y :: insert_desc x l'
  end.

(** [order by score desc]; rows of equal score keep the order in which
    they were read. *)
Definition order_by_score_desc (l : list Scored) : list Scored :=
  fold_right insert_desc [] l.

(** The order of the ids in the primary-key index: byte by byte. *)
Definition id_leb (a b : EmbeddingRow.t) : bool :=
  match String.compare (EmbeddingRow.id a) (EmbeddingRow.id b) with
  | Gt => false
  | _ => true
  end.

Fixpoint insert_by_id (x : EmbeddingRow.t) (l : list EmbeddingRow.t)
  : list EmbeddingRow.t :=
  match l with
  | [] => [x]
  | y :: l' =>
      if id_leb x y then x :: y :: l' else y :: insert_by_id x l'
  end.

(** The rows of one collection as the query reads them: it walks the
    index of the primary key [(collection_id, id)], which lists them by
    id. *)
Definition index_order (l : list EmbeddingRow.t) : list EmbeddingRow.t :=
  fold_right insert_by_id [] l.

(** [limit number]: a negative [number] means no upper bound. *)
Definition limit {A} (number : Z) (l : list A) : list A :=
  if (number <? 0)%Z then l else firstn (Z.to_nat number) l.

(** A [limit] must fit a signed 64-bit integer. *)
Definition int64 (z : Z) : bool :=
  ((- 2 ^ 63 <=? z) && (z <? 2 ^ 63))%Z.

(** select id, content, metadata, distance_score(embedding) as score
    from embeddings where ... order by score desc limit number,
    for a [number] that fits 64 bits *)
Definition select_similar (distance_score : bytes -> float)
    (cid : Z) (skip_id : option string) (number : Z) (d : Database)
  : list Scored :=
  limit number
    (order_by_score_desc
       (map (fun r => (r, distance_score (EmbeddingRow.embedding r)))
            (index_order (filter (where_ cid skip_id) (embeddings d))))).

(** The same query as the engine runs it: a [number] outside the 64-bit
    range is refused ([sqlite3.IntegrityError], datatype mismatch). *)
Definition query_similar (distance_score : bytes -> float)
    (cid : Z) (skip_id : option string) (number : Z) (d : Database)
  : result (list Scored) * Database :=
  if int64 number
  then (Ok (select_similar distance_score cid skip_id number d), d)
  else (Raise IntegrityError, d).

End Query.

(** The answer to a plain [db.query]: the rows, unless a table is missing
    ([sqlite3.OperationalError]). *)
Inductive answer (A : Type) : Type :=
| Rows (a : A)
| OperationalError (msg : string).
Arguments Rows {A} a.
Arguments OperationalError {A} msg.

(** [select 1 from collections where name = ?] *)
Definition select_one_where_name (n : string) (d : Database)
  : answer (list Z) :=
  match collections d with
  | Some rows =>
      Rows (map (fun _ => 1%Z)
                (filter (fun r => String.eqb (CollectionRow.name r) n) rows))
  | None => OperationalError "no such table: collections"
  end.

(** The count of the rows of [embeddings] whose [collection_id] equals
    [(select id from collections where name = ?)].  The scalar subquery
    gives the id of the first matching row, or [NULL], which no
    [collection_id] equals. *)
Definition select_count (n : string) (d : Database) : answer Z :=
  match collections d with
  | Some rows =>
      match filter (fun r => String.eqb (CollectionRow.name r) n) rows with
      | r :: _ =>
          Rows (Z.of_nat
                  (List.length
                     (filter (fun e => Z.eqb (EmbeddingRow.collection_id e)
                                             (CollectionRow.id r))
                             (embeddings d))))
      | [] => Rows 0%Z
      end
  | None => OperationalError "no such table: embeddings"
  end.

End Storage.

(** ** class Collection *)

Module Collection.
Section WithExternals.
Context {X : Externals}.

Definition Model : Type := EmbeddingModel.t float.

Definition max_batch_size : Z := 100.

(** The attributes of the object ([self.db] is the world's database). *)
Record t : Type := {
  name : string;
  _model : option Model;
  _model_id : option string;
  _id : option Z
}.

Record World : Type := {
  self : t;
  db : Database;
  log : list Event
}.

Definition set_self (f : t -> t) : M World unit :=
  modify (fun w => {| self := f (self w); db := db w; log := log w |}).

(** A storage call: recorded in the trace, then run by the engine. *)
Definition storage {A} (e : Event) (f : Database -> result A * Database)
  : M World A :=
  fun w =>
    let (r, d) := f (db w) in
    (r, {| self := self w; db := d; log := log w ++ [e] |}).

Definition read {A} (e : Event) (f : Database -> A) : M World A :=
  storage e (fun d => (Ok (f d), d)).

(** An entry of the bulk write path: [(id, text, metadata)]. *)
Definition Item : Type := (string * string * option Dict)%type.

(** The row written for an item and its vector:
    [content] is [text if store else None],
    [metadata] is [json.dumps(metadata) if metadata else None]. *)
Definition row (collection_id : Z) (store : bool)
    (embedding : list float) (item : Item) : EmbeddingRow.t :=
  let '(id, text, metadata) := item in
  {| EmbeddingRow.collection_id := collection_id;
     EmbeddingRow.id := id;
     EmbeddingRow.embedding := encode embedding;
     EmbeddingRow.content := if store then Some text else None;
     EmbeddingRow.metadata :=
       if truthy metadata
       then match metadata with Some d => Some (json_dumps d) | None => None end
       else None |}.

Definition model : M World Model :=
  w <- get ;;
  match _model (self w) with
  | Some m => ret m
  | None =>
      if negb (truthy (_model_id (self w)))
      then raise (ValueError "No model_id specified")
      else
        match _model_id (self w) with
        | Some mid =>
            match get_embedding_model mid with
            | Some m =>
                set_self (fun s => {| name := name s; _model := Some m;
                                      _model_id := _model_id s; _id := _id s |}) ;;
                ret m
            | None =>
                raise (ValueError
                  "No model_id specified and no model found with that name")
            end
        | None => raise (ValueError "No model_id specified")
        end
  end.

Definition id : M World Z :=
  w <- get ;;
  match _id (self w) with
  | Some i => ret i
  | None =>
      ex <- read TableExists Storage.table_exists ;;
      (if negb ex
       then storage ApplyMigrations (fun d => (Ok tt, Storage.apply_migrations d))
       else ret tt) ;;
      rows <- read (SelectCollection (name (self w)))
                   (Storage.rows_where_name (name (self w))) ;;
      match rows with
      | row :: _ =>
          set_self (fun s => {| name := name s; _model := _model s;
                                _model_id := _model_id s;
                                _id := Some (CollectionRow.id row) |}) ;;
          (match _model_id (self w) with
           | None =>
               set_self (fun s => {| name := name s; _model := _model s;
                                     _model_id := Some (CollectionRow.model row);
                                     _id := _id s |})
           | Some _ => ret tt
           end) ;;
          ret (CollectionRow.id row)
      | [] =>
          (* Create it *)
          m <- model ;;
          pk <- storage (InsertCollection (name (self w)) (EmbeddingModel.model_id m))
                  (Storage.insert_collection (name (self w))
                                             (EmbeddingModel.model_id m)) ;;
          set_self (fun s => {| name := name s; _model := _model s;
                                _model_id := _model_id s; _id := Some pk |}) ;;
          ret pk
      end
  end.

Definition __init__ (name_ : string) (model_ : option Model)
    (model_id : option string) : M World unit :=
  set_self (fun _ => {| name := name_; _model := None; _model_id := None;
                        _id := None |}) ;;
  if truthy model_ && truthy model_id
     && match model_, model_id with
        | Some m, Some mid => negb (String.eqb (EmbeddingModel.model_id m) mid)
        | _, _ => false
        end
  then raise (ValueError "model_id does not match model.model_id")
  else
    set_self (fun s => {| name := name s; _model := model_;
                          _model_id := model_id; _id := None |}) ;;
    i <- id ;;
    set_self (fun s => {| name := name s; _model := _model s;
                          _model_id := _model_id s; _id := Some i |}).

(** [Collection(db, name, model=..., model_id=...)] on a database [d],
    with [l] the storage calls made before. *)
Definition new (d : Database) (l : list Event) (name_ : string)
    (model_ : option Model) (model_id : option string)
  : result unit * World :=
  __init__ name_ model_ model_id
    {| self := {| name := name_; _model := None; _model_id := None;
                  _id := None |};
       db := d; log := l |}.

Definition embed (id_ text : string) (metadata : option Dict) (store : bool)
  : M World unit :=
  m <- model ;;
  let embedding := EmbeddingModel.embed m text in
  cid <- id ;;
  let r := row cid store embedding (id_, text, metadata) in
  storage (InsertEmbedding r) (Storage.insert_all [r]).

(** [min(self.max_batch_size, self.model().batch_size or self.max_batch_size)] *)
Definition batch_size_of (m : Model) : Z :=
  Z.min max_batch_size (or_ (EmbeddingModel.batch_size m) max_batch_size).

(** The rows of one batch:
    [zip(embeddings, batch)] with [embeddings] the model's answer for the
    batch's texts. *)
Definition batch_rows (m : Model) (collection_id : Z) (store : bool)
    (batch : list Item) : list EmbeddingRow.t :=
  let embeddings := EmbeddingModel.embed_multi m (map (fun item => snd (fst item)) batch) in
  map (fun p => row collection_id store (fst p) (snd p))
      (combine embeddings batch).

(** The [while True] loop of [embed_multi_with_metadata]; [None] when the
    fuel runs out before the loop ends. *)
Fixpoint while_batches (fuel : nat) (batch_size collection_id : Z)
    (store : bool) (iterator : list Item) (w : World)
  : option (result unit * World) :=
  match fuel with
  | O => None
  | S fuel' =>
      match islice iterator batch_size with
      | Raise e => Some (Raise e, w)
      | Ok (batch, iterator') =>
          if negb (truthy batch) then Some (Ok tt, w)        (* break *)
          else
            match (m <- model ;;
                   let rows := batch_rows m collection_id store batch in
                   storage (InsertAll rows) (Storage.insert_all rows)) w with
            | (Ok _, w') =>
                while_batches fuel' batch_size collection_id store iterator' w'
            | (Raise e, w') => Some (Raise e, w')
            end
      end
  end.

Definition embed_multi_with_metadata (fuel : nat) (entries : list Item)
    (store : bool) (w : World) : option (result unit * World) :=
  match (m <- model ;; cid <- id ;; ret (batch_size_of m, cid)) w with
  | (Ok (batch_size, collection_id), w') =>
      while_batches fuel batch_size collection_id store entries w'
  | (Raise e, w') => Some (Raise e, w')
  end.

Definition embed_multi (fuel : nat) (entries : list (string * string))
    (store : bool) : World -> option (result unit * World) :=
  embed_multi_with_metadata fuel
    (map (fun e => (fst e, snd e, None)) entries) store.

Definition distance_score (vector : list float) (other_encoded : bytes)
  : float :=
  let other_vector := decode other_encoded in
  cosine_similarity other_vector vector.

(** [Entry(id=row["id"], score=row["score"], content=row["content"],
    metadata=json.loads(row["metadata"]) if row["metadata"] else None)] *)
Definition entry_of (r : Storage.Scored) : Entry.t :=
  {| Entry.id := EmbeddingRow.id (fst r);
     Entry.score := Some (snd r);
     Entry.content := EmbeddingRow.content (fst r);
     Entry.metadata :=
       if truthy (EmbeddingRow.metadata (fst r))
       then match EmbeddingRow.metadata (fst r) with
            | Some s => Some (json_loads s)
            | None => None
            end
       else None |}.

Definition similar_by_vector (vector : list float) (number : Z)
    (skip_id : option string) : M World (list Entry.t) :=
  storage RegisterFunction (fun d => (Ok tt, d)) ;;
  cid <- id ;;
  (* where_bits / where_args: [id != ?] is added under [if skip_id:] *)
  let skip := if truthy skip_id then skip_id else None in
  rows <- storage (SelectSimilar cid skip number)
                  (Storage.query_similar (distance_score vector) cid skip number) ;;
  ret (map entry_of rows).

Definition similar_by_id (id_ : string) (number : Z)
  : M World (list Entry.t) :=
  cid <- id ;;
  matches <- read (SelectEmbedding cid id_) (Storage.rows_where_id cid id_) ;;
  match matches with
  | [] => raise (ValueError "ID not found")
  | first :: _ =>
      let embedding := EmbeddingRow.embedding first in
      let comparison_vector := decode embedding in
      similar_by_vector comparison_vector number (Some id_)
  end.

Definition similar (text : string) (number : Z) : M World (list Entry.t) :=
  m <- model ;;
  let comparison_vector := EmbeddingModel.embed m text in
  similar_by_vector comparison_vector number None.

(** [exists()] and [count()] only read: they are functions of the world. *)
Definition exists_ (w : World) : Storage.answer bool :=
  match Storage.select_one_where_name (name (self w)) (db w) with
  | Storage.Rows matches => Storage.Rows (truthy matches)
  | Storage.OperationalError msg => Storage.OperationalError msg
  end.

Definition count (w : World) : Storage.answer Z :=
  Storage.select_count (name (self w)) (db w).

End WithExternals.
End Collection.

(** ** A small instance to run the definitions on

    Vector components are small integers packed one per byte, and the dot
    product stands in for the score.  The registry knows two models:
    ["pair"] embeds in batches of two, ["broken"] declares a negative batch
    size. *)

Module Example.

Definition byte_of_int (z : Z) : byte :=
  match Byte.of_N (Z.to_N z) with Some b => b | None => x00 end.

Definition dot (a b : list Z) : Z :=
  fold_left Z.add (map (fun p => fst p * snd p)%Z (combine a b)) 0%Z.

(** Two components: the length of the text, and one. *)
Definition embed_text (text : string) : list Z :=
  [Z.of_nat (String.length text); 1%Z].

Definition pair_model : EmbeddingModel.t Z :=
  {| EmbeddingModel.model_id := "pair";
     EmbeddingModel.batch_size := Some 2%Z;
     EmbeddingModel.embed := embed_text;
     EmbeddingModel.embed_multi := map embed_text |}.

Definition broken_model : EmbeddingModel.t Z :=
  {| EmbeddingModel.model_id := "broken";
     EmbeddingModel.batch_size := Some (-1)%Z;
     EmbeddingModel.embed := embed_text;
     EmbeddingModel.embed_multi := map embed_text |}.

(** A model that declares a batch size of zero. *)
Definition zero_model : EmbeddingModel.t Z :=
  {| EmbeddingModel.model_id := "zero";
     EmbeddingModel.batch_size := Some 0%Z;
     EmbeddingModel.embed := embed_text;
     EmbeddingModel.embed_multi := map embed_text |}.

Definition toy : Externals :=
  {| float := Z;
     float_leb := Z.leb;
     encode := map byte_of_int;
     decode := map (fun b => Z.of_N (Byte.to_N b));
     cosine_similarity := dot;
     get_embedding_model := fun mid =>
       if String.eqb mid "pair" then Some pair_model
       else if String.eqb mid "broken" then Some broken_model
       else None;
     json_dumps := fun d => String.concat "," (map fst d);
     json_loads := fun s => [(s, PyNone)] |}.

Definition empty_db : Database := {| collections := None; embeddings := [] |}.

(** A database in which collection 1, ["docs"], holds two items. *)
Definition docs_db : Database :=
  {| collections :=
       Some [{| CollectionRow.id := 1; CollectionRow.name := "docs";
                CollectionRow.model := "pair" |}];
     embeddings :=
       [{| EmbeddingRow.collection_id := 1; EmbeddingRow.id := "a";
           EmbeddingRow.embedding := [x01; x01];
           EmbeddingRow.content := None; EmbeddingRow.metadata := None |};
        {| EmbeddingRow.collection_id := 1; EmbeddingRow.id := "b";
           EmbeddingRow.embedding := [x03; x01];
           EmbeddingRow.content := Some "abc";
           EmbeddingRow.metadata := Some "k" |}] |}.


(** The object [Collection(db, "docs")] leaves behind on [docs_db]. *)
Definition docs : Collection.t (X := toy) :=
  {| Collection.name := "docs"; Collection._model := None;
     Collection._model_id := Some "pair"; Collection._id := Some 1%Z |}.

Definition world (d : Database) : Collection.World (X := toy) :=
  {| Collection.self := docs; Collection.db := d; Collection.log := [] |}.

(** A collection object built around the model ["broken"]. *)
Definition broken_world : Collection.World (X := toy) :=
  {| Collection.self :=
       @Collection.Build_t toy "docs" (Some broken_model) (Some "broken")
                           (Some 1%Z);
     Collection.db := docs_db; Collection.log := [] |}.

(** Three entries: two batches for the model ["pair"]. *)
Definition three_entries : list Collection.Item :=
  [("x", "x", None); ("y", "yy", Some []); ("z", "zzz", Some [("k", PyInt 1)])].

End Example.

(** ** Notions the properties are stated with *)

Module Notions.

Definition is_collection_insert (e : Event) : bool :=
  match e with InsertCollection _ _ => true | _ => false end.

(** How many rows the trace inserted into [collections]. *)
Definition collection_inserts (l : list Event) : nat :=
  List.length (filter is_collection_insert l).

Section WithExternals.
Context {X : Externals}.

(** [n] calls of [id()] in a row: what each returned, and the world left. *)
Fixpoint id_calls (n : nat) (w : Collection.World)
  : list (result Z) * Collection.World :=
  match n with
  | O => ([], w)
  | S n' =>
      let (r, w1) := Collection.id w in
      let (rs, w2) := id_calls n' w1 in
      (r :: rs, w2)
  end.

(** The storage calls of an unresolved [id()], up to the lookup by name. *)
Definition lookup_calls (w : Collection.World) : list Event :=
  TableExists
  :: (if Storage.table_exists (Collection.db w) then [] else [ApplyMigrations])
  ++ [SelectCollection (Collection.name (Collection.self w))].

(** The object as [__init__] leaves it just before it calls [id()]. *)
Definition fresh (d : Database) (l : list Event) (n : string)
    (mo : option Collection.Model) (mi : option string) : Collection.World :=
  {| Collection.self :=
       {| Collection.name := n; Collection._model := mo;
          Collection._model_id := mi; Collection._id := None |};
     Collection.db := d; Collection.log := l |}.

(** The check [model and model_id and model.model_id != model_id]. *)
Definition mismatch (mo : option Collection.Model) (mi : option string) : bool :=
  match mo, mi with
  | Some m, Some mid =>
      truthy mid && negb (String.eqb (EmbeddingModel.model_id m) mid)
  | _, _ => false
  end.

(** The batch size in the words of the specification: the cap, or the
    model's batch size if it declares one and that is smaller. *)
Definition declared_batch_size (m : Collection.Model) : Z :=
  Z.min Collection.max_batch_size
        (match EmbeddingModel.batch_size m with
         | Some k => k
         | None => Collection.max_batch_size
         end).

(** A row passes the [where] clause of the similarity query. *)
Definition selected (cid : Z) (skip : option string) (r : EmbeddingRow.t)
  : Prop :=
  EmbeddingRow.collection_id r = cid
  /\ forall s, skip = Some s -> EmbeddingRow.id r <> s.



(** An item with falsy metadata replaced by no metadata at all. *)
Definition null_if_falsy (item : Collection.Item) : Collection.Item :=
  let '(i, text, metadata) := item in
  (i, text, if truthy metadata then metadata else None).

(** The object's cached id is the id of the row that bears its name: the
    state every successful construction leaves. *)
Definition linked (w : Collection.World) (cid : Z) : Prop :=
  Collection._id (Collection.self w) = Some cid
  /\ exists r rest,
      Storage.rows_where_name (Collection.name (Collection.self w))
                              (Collection.db w) = r :: rest
      /\ CollectionRow.id r = cid.

(** The items stored under collection [cid]. *)
Definition items_of (cid : Z) (d : Database) : list EmbeddingRow.t :=
  filter (fun e => Z.eqb (EmbeddingRow.collection_id e) cid) (embeddings d).

(** No two rows of [collections] share a name, or an id. *)
Definition unique_collections (d : Database) : Prop :=
  NoDup (map CollectionRow.name (Storage.table d))
  /\ NoDup (map CollectionRow.id (Storage.table d)).

(** The first [k] consecutive slices of [n] elements of [l]. *)
Fixpoint slices {A} (k n : nat) (l : list A) : list (list A) :=
  match k with
  | O => []
  | S k' => firstn n l :: slices k' n (skipn n l)
  end.

(** [l] cut into slices of [n] elements, the last one possibly shorter. *)
Definition chunks {A} (n : nat) (l : list A) : list (list A) :=
  slices ((List.length l + n - 1) / n) n l.

(** The vectors the model returns for the entries when they are submitted
    in batches of [n]: its answer for the first batch, then its answer for
    the second, and so on. *)
Definition vectors_of (m : Collection.Model) (n : nat)
    (entries : list Collection.Item) : list (list float) :=
  List.concat
    (map (fun b => EmbeddingModel.embed_multi m
                     (map (fun item => snd (fst item)) b))
         (chunks n entries)).

(** The entries can all be inserted under collection [cid]: their ids
    differ from one another and from the ids already stored there. *)
Definition clash_free (cid : Z) (entries : list Collection.Item)
    (tbl : list EmbeddingRow.t) : Prop :=
  NoDup (map (fun item => fst (fst item)) entries)
  /\ forall item r,
      In item entries -> In r tbl ->
      EmbeddingRow.collection_id r = cid ->
      EmbeddingRow.id r <> fst (fst item).

End WithExternals.
End Notions.

(** * Properties *)

Section Properties.
Context {X : Externals}.
Import Collection Notions.

Ltac unfold_monad :=
  unfold bind, ret, raise, get, modify, set_self, storage, read in *.

(** *** [model()] *)

Lemma model_cached (w : World) (m : Model) :
  _model (self w) = Some m -> model w = (Ok m, w).
Proof.
  intros H. unfold model. unfold_monad. rewrite H. reflexivity.
Qed.

(** [model()] touches neither the storage nor the cached id; when it
    returns, the model is cached. *)
Lemma model_spec (w : World) :
  match model w with
  | (Ok m, w') =>
      _model (self w') = Some m /\ db w' = db w /\ log w' = log w
      /\ _id (self w') = _id (self w) /\ name (self w') = name (self w)
      /\ _model_id (self w') = _model_id (self w)
  | (Raise e, w') => w' = w
  end.
Proof.
  unfold model. unfold_monad. destruct w as [[n mo mi i] d l]; cbn.
  destruct mo as [m|]; cbn; [tauto|].
  destruct mi as [mid|]; cbn; [|reflexivity].
  destruct (truthy mid); cbn; [|reflexivity].
  destruct (get_embedding_model mid); cbn; [tauto|reflexivity].
Qed.

(** *** [id()] *)

Lemma id_cached (w : World) (i : Z) :
  _id (self w) = Some i -> id w = (Ok i, w).
Proof.
  intros H. unfold id. unfold_monad. rewrite H. reflexivity.
Qed.

(** A row of that name exists: its id is cached, and its model id adopted
    when the object has none. *)
Lemma id_found (w : World) (r : CollectionRow.t) (rest : list CollectionRow.t) :
  _id (self w) = None ->
  Storage.rows_where_name (name (self w)) (db w) = r :: rest ->
  id w =
  (Ok (CollectionRow.id r),
   {| self := {| name := name (self w);
                 _model := _model (self w);
                 _model_id := match _model_id (self w) with
                              | None => Some (CollectionRow.model r)
                              | Some mid => Some mid
                              end;
                 _id := Some (CollectionRow.id r) |};
      db := db w;
      log := log w ++ lookup_calls w |}).
Proof.
  destruct w as [[n mo mi i] [c e] l]; cbn. intros -> Hr.
  unfold lookup_calls, id, Storage.rows_where_name, Storage.table in *.
  unfold_monad; cbn in *.
  destruct c as [rows|]; cbn in *; [|discriminate].
  rewrite Hr. rewrite <- app_assoc.
  destruct mi; reflexivity.
Qed.

(** No row of that name and the model resolves: the row is created. *)
Lemma id_created (w w1 : World) (m : Model) :
  _id (self w) = None ->
  Storage.rows_where_name (name (self w)) (db w) = [] ->
  model w = (Ok m, w1) ->
  let pk := Storage.next_rowid (Storage.table (db w)) in
  id w =
  (Ok pk,
   {| self := {| name := name (self w); _model := Some m;
                 _model_id := _model_id (self w); _id := Some pk |};
      db := {| collections :=
                 Some (Storage.table (db w) ++
                       [{| CollectionRow.id := pk;
                           CollectionRow.name := name (self w);
                           CollectionRow.model := EmbeddingModel.model_id m |}]);
               embeddings := embeddings (db w) |};
      log := log w ++ lookup_calls w
             ++ [InsertCollection (name (self w)) (EmbeddingModel.model_id m)] |}).
Proof.
  destruct w as [[n mo mi i] [c e] l]; cbn. intros -> Hr Hm.
  unfold lookup_calls, id, model, Storage.rows_where_name, Storage.table,
    Storage.insert_collection, Storage.apply_migrations in *.
  unfold_monad; cbn in *.
  assert (Hex : forall rows,
             filter (fun r => String.eqb (CollectionRow.name r) n) rows = [] ->
             existsb (fun r => String.eqb (CollectionRow.name r) n) rows = false).
  { induction rows as [|r rows IH]; cbn; [reflexivity|].
    destruct (String.eqb (CollectionRow.name r) n); [discriminate|]. exact IH. }
  destruct c as [rows|]; cbn in *.
  - rewrite Hr.
    destruct mo as [m0|]; cbn in *.
    + inversion Hm; subst. rewrite (Hex _ Hr). cbn.
      repeat rewrite <- app_assoc. reflexivity.
    + destruct mi as [mid|]; cbn in *; [|discriminate].
      destruct (truthy mid); cbn in *; [|discriminate].
      destruct (get_embedding_model mid); cbn in *; [|discriminate].
      inversion Hm; subst. rewrite (Hex _ Hr). cbn.
      repeat rewrite <- app_assoc. reflexivity.
  - destruct mo as [m0|]; cbn in *.
    + inversion Hm; subst. repeat rewrite <- app_assoc. reflexivity.
    + destruct mi as [mid|]; cbn in *; [|discriminate].
      destruct (truthy mid); cbn in *; [|discriminate].
      destruct (get_embedding_model mid); cbn in *; [|discriminate].
      inversion Hm; subst. repeat rewrite <- app_assoc. reflexivity.
Qed.

(** No row of that name and no model: nothing is inserted. *)
Lemma id_no_model (w w1 : World) (e : exn) :
  _id (self w) = None ->
  Storage.rows_where_name (name (self w)) (db w) = [] ->
  model w = (Raise e, w1) ->
  id w =
  (Raise e,
   {| self := self w; db := Storage.apply_migrations (db w);
      log := log w ++ lookup_calls w |}).
Proof.
  destruct w as [[n mo mi i] [c em] l]; cbn. intros -> Hr Hm.
  unfold lookup_calls, id, model, Storage.rows_where_name, Storage.table,
    Storage.apply_migrations in *.
  unfold_monad; cbn in *.
  destruct c as [rows|]; cbn in *.
  - rewrite Hr.
    destruct mo as [m0|]; cbn in *; [discriminate|].
    destruct mi as [mid|]; cbn in *.
    + destruct (truthy mid); cbn in *.
      * destruct (get_embedding_model mid); cbn in *; [discriminate|].
        inversion Hm; subst. repeat rewrite <- app_assoc. reflexivity.
      * inversion Hm; subst. repeat rewrite <- app_assoc. reflexivity.
    + inversion Hm; subst. repeat rewrite <- app_assoc. reflexivity.
  - destruct mo as [m0|]; cbn in *; [discriminate|].
    destruct mi as [mid|]; cbn in *.
    + destruct (truthy mid); cbn in *.
      * destruct (get_embedding_model mid); cbn in *; [discriminate|].
        inversion Hm; subst. repeat rewrite <- app_assoc. reflexivity.
      * inversion Hm; subst. repeat rewrite <- app_assoc. reflexivity.
    + inversion Hm; subst. repeat rewrite <- app_assoc. reflexivity.
Qed.

Lemma id_ok (w w1 : World) (i : Z) :
  id w = (Ok i, w1) ->
  _id (self w1) = Some i
  /\ name (self w1) = name (self w)
  /\ embeddings (db w1) = embeddings (db w)
  /\ collection_inserts (log w1) <= collection_inserts (log w) + 1
  /\ (forall m, _model (self w) = Some m -> _model (self w1) = Some m).
Proof.
  intros H.
  destruct (_id (self w)) as [i0|] eqn:Hid.
  - rewrite (id_cached _ _ Hid) in H. inversion H; subst.
    repeat split; auto. lia.
  - destruct (Storage.rows_where_name (name (self w)) (db w)) as [|r rest] eqn:Hr.
    + pose proof (model_spec w) as Hm.
      destruct (model w) as [[m|e] wm] eqn:Em.
      * rewrite (id_created _ _ _ Hid Hr Em) in H. inversion H; subst; cbn.
        repeat split; auto.
        -- unfold collection_inserts, lookup_calls.
           rewrite !filter_app, !length_app. cbn.
           destruct (Storage.table_exists (db w)); cbn; lia.
        -- intros m0 Hm0. rewrite (model_cached _ _ Hm0) in Em.
           inversion Em; subst. reflexivity.
      * rewrite (id_no_model _ _ _ Hid Hr Em) in H. discriminate.
    + rewrite (id_found _ _ _ Hid Hr) in H. inversion H; subst; cbn.
      repeat split; auto.
      unfold collection_inserts, lookup_calls.
      rewrite !filter_app, !length_app. cbn.
      destruct (Storage.table_exists (db w)); cbn; lia.
Qed.

Lemma id_calls_cached (n : nat) (w : World) (i : Z) :
  _id (self w) = Some i -> id_calls n w = (repeat (Ok i) n, w).
Proof.
  intros H. induction n as [|n IH]; cbn [id_calls repeat]; [reflexivity|].
  rewrite (id_cached _ _ H), IH. reflexivity.
Qed.

(** *** [__init__] *)

Lemma mismatch_spec (mo : option Model) (mi : option string) :
  truthy mo && truthy mi
  && match mo, mi with
     | Some m, Some mid => negb (String.eqb (EmbeddingModel.model_id m) mid)
     | _, _ => false
     end = mismatch mo mi.
Proof.
  destruct mo as [m|], mi as [mid|]; reflexivity.
Qed.

Lemma new_mismatch (d : Database) (l : list Event) (n : string)
    (mo : option Model) (mi : option string) :
  mismatch mo mi = true ->
  new d l n mo mi =
  (Raise (ValueError "model_id does not match model.model_id"),
   fresh d l n None None).
Proof.
  intros H. unfold new, __init__. unfold_monad; cbn.
  rewrite mismatch_spec, H. reflexivity.
Qed.

(** Past the check, construction is [id()] on the new object. *)
Lemma new_valid (d : Database) (l : list Event) (n : string)
    (mo : option Model) (mi : option string) :
  mismatch mo mi = false ->
  new d l n mo mi =
  match id (fresh d l n mo mi) with
  | (Ok _, w) => (Ok tt, w)
  | (Raise e, w) => (Raise e, w)
  end.
Proof.
  intros H.
  cbv [new __init__ bind modify set_self raise self db log name].
  rewrite mismatch_spec, H. fold (fresh d l n mo mi).
  destruct (id (fresh d l n mo mi)) as [[i|e] w] eqn:E; [|reflexivity].
  apply id_ok in E. destruct E as (Hi & _).
  destruct w as [[n' mo' mi' i'] d' l']; cbn in *. rewrite Hi. reflexivity.
Qed.

(** C1, as amended.  Construction ends with [self._id = self.id()], so the
    id is resolved eagerly.  When the model/model_id check fails the storage
    is not touched.  Otherwise the constructor looks the name up in
    [collections] (after creating the schema if needed); when it succeeds a
    row of that name is in storage and its id is cached, so that later
    [id()] calls answer from the cache; and when no row of that name
    existed, construction inserted it. *)
Theorem construction_resolves_id (d : Database) (l : list Event) (n : string)
    (mo : option Model) (mi : option string) :
  let r := fst (new d l n mo mi) in
  let w := snd (new d l n mo mi) in
  if mismatch mo mi
  then r = Raise (ValueError "model_id does not match model.model_id")
       /\ db w = d /\ log w = l
  else
    (exists calls, log w = l ++ lookup_calls (fresh d l n mo mi) ++ calls)
    /\ (r = Ok tt ->
        exists row,
          In row (Storage.table (db w))
          /\ CollectionRow.name row = n
          /\ _id (self w) = Some (CollectionRow.id row)
          /\ id w = (Ok (CollectionRow.id row), w))
    /\ (r = Ok tt -> Storage.rows_where_name n d = [] ->
        exists m,
          log w = l ++ lookup_calls (fresh d l n mo mi) ++ [InsertCollection n m]
          /\ collections (db w) =
             Some (Storage.table d ++
                   [{| CollectionRow.id := Storage.next_rowid (Storage.table d);
                       CollectionRow.name := n;
                       CollectionRow.model := m |}])).
Proof.
  cbv zeta. destruct (mismatch mo mi) eqn:Hmis.
  - rewrite (new_mismatch _ _ _ _ _ Hmis). cbn. auto.
  - rewrite (new_valid _ _ _ _ _ Hmis).
    set (w0 := fresh d l n mo mi).
    assert (Hid : _id (self w0) = None) by reflexivity.
    destruct (Storage.rows_where_name (name (self w0)) (db w0))
      as [|row rest] eqn:Hr.
    + destruct (model w0) as [[m|e] wm] eqn:Em.
      * rewrite (id_created _ _ _ Hid Hr Em). cbn -[lookup_calls id].
        split; [eexists; reflexivity|]. split.
        -- intros _. eexists. split; [apply in_or_app; right; left; reflexivity|].
           split; [reflexivity|]. split; [reflexivity|].
           apply id_cached. reflexivity.
        -- intros _ _. exists (EmbeddingModel.model_id m). split; reflexivity.
      * rewrite (id_no_model _ _ _ Hid Hr Em). cbn -[lookup_calls id].
        split; [exists []; rewrite app_nil_r; reflexivity|]. split; discriminate.
    + rewrite (id_found _ _ _ Hid Hr). cbn -[lookup_calls id].
      split; [exists []; rewrite app_nil_r; reflexivity|]. split.
      * intros _. exists row.
        assert (Hin : In row (Storage.rows_where_name n d)).
        { cbn in Hr. rewrite Hr. left. reflexivity. }
        unfold Storage.rows_where_name in Hin.
        apply filter_In in Hin. destruct Hin as [Hin Hname].
        apply String.eqb_eq in Hname.
        repeat split; auto.
      * intros _ Hnone. cbn in Hr. rewrite Hr in Hnone. discriminate.
Qed.

(** C5.  From any state of the object, once a call of [id()] has returned
    [i], any number of calls return [i], leave the world as the first call
    left it, and add at most one insert into [collections]; and every object
    that [__init__] has built is in that state: its [N] calls return the
    same cached id, change nothing, and the trace of its whole lifetime,
    construction included, holds at most one insert more than before. *)
Theorem id_idempotent (w : World) (N : nat) :
  1 <= N ->
  (forall i w1,
      id w = (Ok i, w1) ->
      id_calls N w = (repeat (Ok i) N, w1)
      /\ _id (self w1) = Some i
      /\ collection_inserts (log w1) <= collection_inserts (log w) + 1)
  /\ (forall d l n mo mi,
        new d l n mo mi = (Ok tt, w) ->
        exists i,
          id_calls N w = (repeat (Ok i) N, w)
          /\ _id (self w) = Some i
          /\ collection_inserts (log w) <= collection_inserts l + 1).
Proof.
  intros HN. split.
  - intros i w1 H. destruct (id_ok _ _ _ H) as (Hi & _ & _ & Hins & _).
    repeat split; auto.
    destruct N as [|N]; [lia|]. cbn [id_calls repeat].
    rewrite H, (id_calls_cached _ _ _ Hi). reflexivity.
  - intros d l n mo mi H.
    destruct (mismatch mo mi) eqn:Hmis.
    + rewrite (new_mismatch _ _ _ _ _ Hmis) in H. discriminate.
    + rewrite (new_valid _ _ _ _ _ Hmis) in H.
      destruct (id (fresh d l n mo mi)) as [[i|e] w'] eqn:E; [|discriminate].
      inversion H; subst w'.
      destruct (id_ok _ _ _ E) as (Hi & _ & _ & Hins & _).
      exists i. repeat split; auto. apply id_calls_cached. exact Hi.
Qed.


Lemma filter_nil {A} (f : A -> bool) (xs : list A) :
  (forall x, In x xs -> f x = false) -> filter f xs = [].
Proof.
  induction xs as [|x xs IH]; intros H; cbn; [reflexivity|].
  rewrite (H x (or_introl eq_refl)). apply IH.
  intros y Hy. apply H. right. exact Hy.
Qed.

(** C8.  When the collection holds no item of the given id, [similar_by_id]
    raises ["ID not found"] (the module's not-found error is a
    [ValueError]) after a single storage call, the lookup of the item: the
    scoring function is not registered and the similarity query is not
    issued; the database is unchanged. *)
Theorem similar_by_id_not_found (w : World) (cid : Z) (i : string)
    (number : Z) :
  _id (self w) = Some cid ->
  (forall r, In r (embeddings (db w)) ->
             EmbeddingRow.collection_id r = cid -> EmbeddingRow.id r <> i) ->
  similar_by_id i number w =
  (Raise (ValueError "ID not found"),
   {| self := self w; db := db w; log := log w ++ [SelectEmbedding cid i] |}).
Proof.
  intros Hid Habs.
  cbv [similar_by_id bind]. rewrite (id_cached _ _ Hid).
  cbv [read storage raise Storage.rows_where_id].
  rewrite filter_nil; [reflexivity|].
  intros r Hin.
  destruct (Z.eqb_spec (EmbeddingRow.collection_id r) cid) as [Hc|Hc];
    [|reflexivity].
  cbn. apply String.eqb_neq. apply Habs; assumption.
Qed.

(** *** The write path *)

Lemma insert_rows_some (rows tbl tbl' : list EmbeddingRow.t) :
  Storage.insert_rows rows tbl = Some tbl' -> tbl' = tbl ++ rows.
Proof.
  revert tbl. induction rows as [|r rows IH]; intros tbl H; cbn in H.
  - inversion H. now rewrite app_nil_r.
  - destruct (existsb (Storage.same_key r) tbl); [discriminate|].
    rewrite (IH _ H), <- app_assoc. reflexivity.
Qed.

(** Never more than the cap, and never zero. *)
Lemma batch_size_of_bounds (m : Model) :
  (batch_size_of m <= 100)%Z /\ batch_size_of m <> 0%Z.
Proof.
  unfold batch_size_of, max_batch_size, or_.
  destruct (EmbeddingModel.batch_size m) as [k|]; [|cbn; lia].
  unfold truthy, truthy_int. destruct (Z.eqb_spec k 0); cbn; lia.
Qed.

Lemma batch_size_of_positive (m : Model) :
  (forall k, EmbeddingModel.batch_size m = Some k -> (0 <= k)%Z) ->
  (1 <= batch_size_of m)%Z.
Proof.
  intros H. unfold batch_size_of, max_batch_size, or_.
  destruct (EmbeddingModel.batch_size m) as [k|]; [|cbn; lia].
  specialize (H k eq_refl).
  unfold truthy, truthy_int. destruct (Z.eqb_spec k 0); cbn; lia.
Qed.

Lemma batch_size_of_negative (m : Model) (k : Z) :
  EmbeddingModel.batch_size m = Some k -> (k < 0)%Z -> batch_size_of m = k.
Proof.
  intros H Hk. unfold batch_size_of, max_batch_size, or_. rewrite H.
  unfold truthy, truthy_int. destruct (Z.eqb_spec k 0); cbn; lia.
Qed.

Lemma batch_rows_length (m : Model) (cid : Z) (store : bool)
    (batch : list Item) :
  List.length (batch_rows m cid store batch) <= List.length batch.
Proof.
  unfold batch_rows. rewrite length_map, length_combine. lia.
Qed.

(** The loop, for a batch size other than zero: the entries split into the
    batches written ([done]), at most one batch whose insert failed
    ([failed]) and the entries never reached ([rest]). *)
Lemma while_batches_run (m : Model) (cid : Z) (store : bool) (bs : Z) :
  bs <> 0%Z ->
  forall (fuel : nat) (it : list Item) (w : World),
    _model (self w) = Some m ->
    List.length it < fuel ->
    exists r w' done failed rest,
      while_batches fuel bs cid store it w = Some (r, w')
      /\ it = List.concat done ++ List.concat failed ++ rest
      /\ Forall (fun b => 1 <= List.length b
                          /\ (Z.of_nat (List.length b) <= bs)%Z)
                (done ++ failed)
      /\ self w' = self w
      /\ collections (db w') = collections (db w)
      /\ embeddings (db w') =
         embeddings (db w) ++ List.concat (map (batch_rows m cid store) done)
      /\ log w' =
         log w ++ map (fun b => InsertAll (batch_rows m cid store b))
                      (done ++ failed)
      /\ (r = Ok tt -> failed = [] /\ rest = [])
      /\ (r = Ok tt
          \/ (r = Raise IntegrityError /\ exists b, failed = [b])
          \/ ((bs < 0)%Z /\ done = [] /\ failed = []
              /\ exists msg, r = Raise (ValueError msg))).
Proof.
  intros Hbs. induction fuel as [|fuel IH]; intros it w Hm Hlen; [lia|].
  cbn [while_batches]. unfold islice.
  destruct (Z.ltb_spec bs 0) as [Hneg|Hpos].
  - exists (Raise (ValueError
      "Stop argument for islice() must be None or an integer: 0 <= x <= sys.maxsize.")),
      w, [], [], it.
    cbn. rewrite !app_nil_r. repeat split; auto; try discriminate.
    right. right. repeat split; auto. eexists. reflexivity.
  - assert (Hn : 1 <= Z.to_nat bs) by lia.
    destruct (firstn (Z.to_nat bs) it) as [|x batch'] eqn:Hb.
    + assert (it = []) as ->.
      { destruct it as [|y it]; [reflexivity|].
        destruct (Z.to_nat bs); [lia|discriminate]. }
      exists (Ok tt), w, [], [], []. cbn. rewrite !app_nil_r.
      repeat split; auto.
    + cbn [truthy truthy_list negb].
      set (batch := x :: batch') in *.
      unfold bind. rewrite (model_cached _ _ Hm).
      unfold storage, Storage.insert_all. cbv zeta.
      set (rows := batch_rows m cid store batch).
      destruct (Storage.insert_rows rows (embeddings (db w))) as [tbl|] eqn:Hins.
      * apply insert_rows_some in Hins. subst tbl. cbv beta iota.
        match goal with
        | |- context [while_batches fuel bs cid store _ ?w1] =>
            destruct (IH (skipn (Z.to_nat bs) it) w1) as
              (r & w' & done & failed & rest & Hrun & Hit & Hall & Hself
               & Hcol & Hemb & Hlog & Hok & Hcase)
        end.
        { exact Hm. }
        { rewrite length_skipn.
          assert (List.length it <> 0).
          { intros E. apply length_zero_iff_nil in E. subst it.
            rewrite firstn_nil in Hb. discriminate. }
          lia. }
        exists r, w', (batch :: done), failed, rest.
        rewrite Hrun. cbn in Hself, Hcol, Hemb, Hlog.
        split; [reflexivity|]. split.
        { rewrite <- (firstn_skipn (Z.to_nat bs) it) at 1.
          rewrite Hb, Hit. cbn. rewrite <- !app_assoc. reflexivity. }
        split.
        { cbn. constructor; [|exact Hall].
          assert (Hle := firstn_le_length (Z.to_nat bs) it). rewrite Hb in Hle.
          fold batch in Hle. subst batch. cbn in *. lia. }
        split; [exact Hself|]. split; [exact Hcol|]. split.
        { rewrite Hemb. cbn. rewrite <- !app_assoc. reflexivity. }
        split.
        { rewrite Hlog. cbn. rewrite <- !app_assoc. reflexivity. }
        split; [exact Hok|].
        destruct Hcase as [H|[H|(H1 & H2 & H3 & H4)]]; auto. lia.
      * cbv beta iota.
        exists (Raise IntegrityError). eexists.
        exists [], [batch], (skipn (Z.to_nat bs) it).
        split; [reflexivity|]. cbn. rewrite !app_nil_r. split.
        { rewrite <- (firstn_skipn (Z.to_nat bs) it) at 1.
          rewrite Hb. reflexivity. }
        split.
        { constructor; [|constructor].
          assert (Hle := firstn_le_length (Z.to_nat bs) it). rewrite Hb in Hle.
          subst batch. cbn in *. lia. }
        repeat split; auto; try discriminate.
        right. left. split; [reflexivity|]. eexists. reflexivity.
Qed.

Lemma while_batches_negative (fuel : nat) (bs cid : Z) (store : bool)
    (it : list Item) (w : World) :
  (bs < 0)%Z ->
  exists msg,
    while_batches (S fuel) bs cid store it w = Some (Raise (ValueError msg), w).
Proof.
  intros H. cbn [while_batches]. unfold islice.
  destruct (Z.ltb_spec bs 0); [|lia]. eexists. reflexivity.
Qed.

(** [embed_multi_with_metadata] on an object whose id is resolved and whose
    model resolves to [m]. *)
Lemma embed_multi_with_metadata_run (w : World) (m : Model) (cid : Z)
    (entries : list Item) (store : bool) (fuel : nat) :
  fst (model w) = Ok m ->
  _id (self w) = Some cid ->
  List.length entries < fuel ->
  exists r w' done failed rest,
    embed_multi_with_metadata fuel entries store w = Some (r, w')
    /\ entries = List.concat done ++ List.concat failed ++ rest
    /\ Forall (fun b => 1 <= List.length b
                        /\ (Z.of_nat (List.length b) <= batch_size_of m)%Z)
              (done ++ failed)
    /\ _id (self w') = Some cid
    /\ collections (db w') = collections (db w)
    /\ embeddings (db w') =
       embeddings (db w) ++ List.concat (map (batch_rows m cid store) done)
    /\ log w' =
       log w ++ map (fun b => InsertAll (batch_rows m cid store b))
                    (done ++ failed)
    /\ (r = Ok tt -> failed = [] /\ rest = [])
    /\ (r = Ok tt
        \/ (r = Raise IntegrityError /\ exists b, failed = [b])
        \/ ((batch_size_of m < 0)%Z /\ done = [] /\ failed = []
            /\ exists msg, r = Raise (ValueError msg))).
Proof.
  intros Hm Hid Hlen.
  pose proof (model_spec w) as Hspec.
  destruct (model w) as [[m'|e] w1] eqn:Em; cbn in Hm; [|discriminate].
  inversion Hm; subst m'.
  destruct Hspec as (Hm1 & Hdb & Hlog & Hid1 & _).
  rewrite Hid in Hid1.
  destruct (while_batches_run m cid store (batch_size_of m)
              (proj2 (batch_size_of_bounds m)) fuel entries w1 Hm1 Hlen)
    as (r & w' & done & failed & rest & Hrun & Hit & Hall & Hself
        & Hcol & Hemb & Hlg & Hok & Hcase).
  exists r, w', done, failed, rest.
  unfold embed_multi_with_metadata, bind. rewrite Em, (id_cached _ _ Hid1).
  cbv [ret]. rewrite Hrun, Hself, Hcol, Hemb, Hlg, Hdb, Hlog.
  repeat split; auto; apply Hok; assumption.
Qed.

(** The call ends whatever the object and the model. *)
Lemma embed_multi_with_metadata_total (w : World) (entries : list Item)
    (store : bool) (fuel : nat) :
  List.length entries < fuel ->
  exists r w', embed_multi_with_metadata fuel entries store w = Some (r, w').
Proof.
  intros Hlen. unfold embed_multi_with_metadata, bind.
  pose proof (model_spec w) as Hspec.
  destruct (model w) as [[m|e] w1] eqn:Em; [|eauto].
  destruct Hspec as (Hm1 & _).
  destruct (id w1) as [[cid|e] w2] eqn:Ei; [|eauto].
  destruct (id_ok _ _ _ Ei) as (_ & _ & _ & _ & Hkeep).
  cbv [ret].
  destruct (while_batches_run m cid store (batch_size_of m)
              (proj2 (batch_size_of_bounds m)) fuel entries w2
              (Hkeep _ Hm1) Hlen)
    as (r & w' & done & failed & rest & Hrun & _).
  eauto.
Qed.

Lemma nth_error_combine_r {A B} (l1 : list A) (l2 : list B) (i : nat) (b : B) :
  List.length l1 = List.length l2 ->
  nth_error l2 i = Some b ->
  exists a, nth_error l1 i = Some a /\ nth_error (combine l1 l2) i = Some (a, b).
Proof.
  revert l2 i. induction l1 as [|a l1 IH]; intros [|b' l2] i Hlen Hi;
    cbn in Hlen; try discriminate.
  - destruct i; discriminate.
  - destruct i as [|i]; cbn in *.
    + inversion Hi; subst. eauto.
    + apply IH; [lia|exact Hi].
Qed.

(** Within one batch, row [i] carries the id of entry [i] and the encoding
    of vector [i]. *)
Lemma batch_rows_aligned (m : Model) (cid : Z) (store : bool)
    (batch : list Item) :
  List.length (EmbeddingModel.embed_multi m (map (fun item => snd (fst item)) batch))
  = List.length batch ->
  List.length (batch_rows m cid store batch) = List.length batch
  /\ forall i item,
      nth_error batch i = Some item ->
      exists v r,
        nth_error (EmbeddingModel.embed_multi m
                     (map (fun item => snd (fst item)) batch)) i = Some v
        /\ nth_error (batch_rows m cid store batch) i = Some r
        /\ r = row cid store v item
        /\ EmbeddingRow.id r = fst (fst item)
        /\ EmbeddingRow.embedding r = encode v.
Proof.
  intros Hlen. unfold batch_rows. split.
  - rewrite length_map, length_combine. lia.
  - intros i item Hi.
    destruct (nth_error_combine_r _ _ _ _ Hlen Hi) as (v & Hv & Hc).
    exists v, (row cid store v item).
    rewrite nth_error_map, Hc. cbn.
    destruct item as [[i0 text] md]. repeat split; auto.
Qed.

(** C6, as amended.  The batch size is the smaller of 100 and the model's
    batch size, where a model that declares none, or declares zero, counts
    for 100.  So it never exceeds 100, and neither does any batch handed to
    [insert_all] by [embed_multi_with_metadata] or [embed_multi]. *)
Theorem batch_size_bound (w : World) (m : Model) (cid : Z)
    (entries : list Item) (pairs : list (string * string))
    (store : bool) (fuel : nat) :
  fst (model w) = Ok m ->
  _id (self w) = Some cid ->
  List.length entries < fuel ->
  List.length pairs < fuel ->
  batch_size_of m =
    Z.min 100 (match EmbeddingModel.batch_size m with
               | Some k => if (k =? 0)%Z then 100 else k
               | None => 100
               end)%Z
  /\ (batch_size_of m <= 100)%Z
  /\ (exists r w' batches,
        embed_multi_with_metadata fuel entries store w = Some (r, w')
        /\ log w' = log w ++ map (fun b => InsertAll (batch_rows m cid store b))
                                 batches
        /\ Forall (fun b => List.length b <= 100
                            /\ List.length (batch_rows m cid store b) <= 100)
                  batches)
  /\ (exists r w' batches,
        embed_multi fuel pairs store w = Some (r, w')
        /\ log w' = log w ++ map (fun b => InsertAll (batch_rows m cid store b))
                                 batches
        /\ Forall (fun b => List.length b <= 100
                            /\ List.length (batch_rows m cid store b) <= 100)
                  batches).
Proof.
  intros Hm Hid Hlen Hlen'.
  assert (Hrun : forall items, List.length items < fuel ->
    exists r w' batches,
      embed_multi_with_metadata fuel items store w = Some (r, w')
      /\ log w' = log w ++ map (fun b => InsertAll (batch_rows m cid store b))
                               batches
      /\ Forall (fun b => List.length b <= 100
                          /\ List.length (batch_rows m cid store b) <= 100)
                batches).
  { intros items Hitems.
    destruct (embed_multi_with_metadata_run w m cid items store fuel Hm Hid Hitems)
      as (r & w' & done & failed & rest & Hrun & _ & Hall & _ & _ & _ & Hlog & _).
    exists r, w', (done ++ failed). repeat split; auto.
    eapply Forall_impl; [|exact Hall]. cbn. intros b [_ Hb].
    pose proof (proj1 (batch_size_of_bounds m)).
    pose proof (batch_rows_length m cid store b). lia. }
  split; [|split; [apply batch_size_of_bounds|split]].
  - unfold batch_size_of, max_batch_size, or_.
    destruct (EmbeddingModel.batch_size m) as [k|]; [|reflexivity].
    unfold truthy, truthy_int. destruct (Z.eqb_spec k 0); reflexivity.
  - apply Hrun. exact Hlen.
  - unfold embed_multi. apply Hrun. rewrite length_map. exact Hlen'.
Qed.

(** C10, as amended.  On a finite list of entries the call always ends.
    When the model's batch size is absent, zero or positive, the batch size
    computed is at least 1: every turn of the loop takes a non-empty batch
    off the iterator and hands it to one [insert_all], and the call returns
    normally only once the entries are used up.  When the model declares a
    negative batch size, that number is the batch size computed, and the
    first [islice] raises [ValueError] before any entry is read or written. *)
Theorem embed_multi_with_metadata_terminates (w : World)
    (entries : list Item) (store : bool) (fuel : nat) :
  List.length entries < fuel ->
  (exists r w', embed_multi_with_metadata fuel entries store w = Some (r, w'))
  /\ (forall m cid,
        fst (model w) = Ok m ->
        _id (self w) = Some cid ->
        ((forall k, EmbeddingModel.batch_size m = Some k -> (0 <= k)%Z) ->
         (1 <= batch_size_of m)%Z
         /\ exists r w' batches rest,
             embed_multi_with_metadata fuel entries store w = Some (r, w')
             /\ entries = List.concat batches ++ rest
             /\ Forall (fun b => 1 <= List.length b) batches
             /\ log w' =
                log w ++ map (fun b => InsertAll (batch_rows m cid store b))
                             batches
             /\ (r = Ok tt -> rest = []))
        /\ (forall k,
              EmbeddingModel.batch_size m = Some k -> (k < 0)%Z ->
              batch_size_of m = k
              /\ exists msg w',
                  embed_multi_with_metadata fuel entries store w
                  = Some (Raise (ValueError msg), w')
                  /\ db w' = db w /\ log w' = log w)).
Proof.
  intros Hlen. split; [apply embed_multi_with_metadata_total; exact Hlen|].
  intros m cid Hm Hid. split.
  - intros Hk. split; [apply batch_size_of_positive; exact Hk|].
    destruct (embed_multi_with_metadata_run w m cid entries store fuel Hm Hid Hlen)
      as (r & w' & done & failed & rest & Hrun & Hit & Hall & _ & _ & _ & Hlog
          & Hok & _).
    exists r, w', (done ++ failed), rest.
    rewrite concat_app, <- app_assoc. repeat split; auto.
    + eapply Forall_impl; [|exact Hall]. cbn. tauto.
    + intros H. apply Hok. exact H.
  - intros k Hk Hneg.
    pose proof (batch_size_of_negative m k Hk Hneg) as Hbs.
    split; [exact Hbs|].
    pose proof (model_spec w) as Hspec.
    destruct (model w) as [[m'|e] w1] eqn:Em; cbn in Hm; [|discriminate].
    inversion Hm; subst m'.
    destruct Hspec as (_ & Hdb & Hlog & Hid1 & _). rewrite Hid in Hid1.
    destruct fuel as [|fuel]; [lia|].
    destruct (while_batches_negative fuel (batch_size_of m) cid store entries w1)
      as (msg & Hrun); [lia|].
    exists msg, w1.
    unfold embed_multi_with_metadata, bind. rewrite Em, (id_cached _ _ Hid1).
    cbv [ret]. rewrite Hrun. auto.
Qed.

(** *** The similarity query *)

Lemma where_selected (cid : Z) (skip : option string) (r : EmbeddingRow.t) :
  Storage.where_ cid skip r = true <-> selected cid skip r.
Proof.
  unfold Storage.where_, selected. rewrite andb_true_iff, Z.eqb_eq.
  destruct skip as [s|].
  - rewrite negb_true_iff, String.eqb_neq. split.
    + intros [H1 H2]. split; [exact H1|]. intros s' E. inversion E; subst. exact H2.
    + intros [H1 H2]. split; [exact H1|]. apply H2. reflexivity.
  - split.
    + intros [H1 _]. split; [exact H1|]. discriminate.
    + intros [H1 _]. auto.
Qed.

Lemma in_firstn {A} (n : nat) (l : list A) (x : A) :
  In x (firstn n l) -> In x l.
Proof.
  revert l. induction n as [|n IH]; intros [|y l] H; cbn in *; try tauto.
  destruct H as [H|H]; auto.
Qed.

Lemma in_limit {A} (number : Z) (l : list A) (x : A) :
  In x (Storage.limit number l) -> In x l.
Proof.
  unfold Storage.limit. destruct (number <? 0)%Z; [tauto|apply in_firstn].
Qed.


Lemma in_insert_desc (x y : Storage.Scored) (l : list Storage.Scored) :
  In x (Storage.insert_desc y l) <-> x = y \/ In x l.
Proof.
  induction l as [|z l IH]; cbn.
  - intuition congruence.
  - destruct (float_leb (snd z) (snd y)); cbn; [intuition congruence|].
    rewrite IH. intuition congruence.
Qed.

Lemma in_order_by (x : Storage.Scored) (l : list Storage.Scored) :
  In x (Storage.order_by_score_desc l) <-> In x l.
Proof.
  induction l as [|y l IH]; cbn; [tauto|].
  rewrite in_insert_desc, IH. intuition congruence.
Qed.

Lemma in_insert_by_id (x y : EmbeddingRow.t) (l : list EmbeddingRow.t) :
  In x (Storage.insert_by_id y l) <-> x = y \/ In x l.
Proof.
  induction l as [|z l IH]; cbn.
  - intuition congruence.
  - destruct (Storage.id_leb y z); cbn; [intuition congruence|].
    rewrite IH. intuition congruence.
Qed.

Lemma in_index_order (x : EmbeddingRow.t) (l : list EmbeddingRow.t) :
  In x (Storage.index_order l) <-> In x l.
Proof.
  induction l as [|y l IH]; cbn; [tauto|].
  rewrite in_insert_by_id, IH. intuition congruence.
Qed.



(** What the query returns comes from the table, passes the [where] clause
    and is scored by the registered function. *)
Lemma in_select_similar (f : bytes -> float) (cid : Z) (skip : option string)
    (number : Z) (d : Database) (r : EmbeddingRow.t) (sc : float) :
  In (r, sc) (Storage.select_similar f cid skip number d) ->
  In r (embeddings d) /\ selected cid skip r
  /\ sc = f (EmbeddingRow.embedding r).
Proof.
  unfold Storage.select_similar. intros H.
  apply in_limit, in_order_by, in_map_iff in H.
  destruct H as (r' & E & Hin). inversion E; subst.
  apply in_index_order, filter_In in Hin. destruct Hin as [Hin Hw].
  apply where_selected in Hw. auto.
Qed.

Lemma similar_by_vector_run (w : World) (cid : Z) (vector : list float)
    (number : Z) (skip_id : option string) :
  _id (self w) = Some cid ->
  let skip := if truthy skip_id then skip_id else None in
  similar_by_vector vector number skip_id w =
  (if Storage.int64 number
   then Ok (map entry_of
              (Storage.select_similar (distance_score vector) cid skip number
                                      (db w)))
   else Raise IntegrityError,
   {| self := self w; db := db w;
      log := log w ++ [RegisterFunction; SelectSimilar cid skip number] |}).
Proof.
  intros Hid skip. cbv [similar_by_vector bind storage].
  rewrite (id_cached {| self := self w; db := db w;
                        log := log w ++ [RegisterFunction] |} cid Hid).
  cbv [storage ret Storage.query_similar]. cbn [self db log]. fold skip.
  rewrite <- app_assoc. destruct (Storage.int64 number); reflexivity.
Qed.

(** The same, read from a call that returned. *)
Lemma similar_by_vector_ok (w w' : World) (cid : Z) (vector : list float)
    (number : Z) (skip_id : option string) (entries : list Entry.t) :
  _id (self w) = Some cid ->
  similar_by_vector vector number skip_id w = (Ok entries, w') ->
  Storage.int64 number = true
  /\ entries =
     map entry_of
       (Storage.select_similar (distance_score vector) cid
          (if truthy skip_id then skip_id else None) number (db w))
  /\ w' = {| self := self w; db := db w;
             log := log w ++ [RegisterFunction;
                              SelectSimilar cid
                                (if truthy skip_id then skip_id else None)
                                number] |}.
Proof.
  intros Hid H. rewrite (similar_by_vector_run _ _ _ _ _ Hid) in H.
  destruct (Storage.int64 number); inversion H; auto.
Qed.

(** [if row["metadata"]]: [NULL] and the empty string give no metadata. *)
Lemma entry_of_metadata (r : EmbeddingRow.t) (sc : float) :
  Entry.metadata (entry_of (r, sc)) =
  match EmbeddingRow.metadata r with
  | Some s => if truthy s then Some (json_loads s) else None
  | None => None
  end.
Proof.
  unfold entry_of; cbn. destruct (EmbeddingRow.metadata r) as [s|]; cbn; [|reflexivity].
  unfold truthy, truthy_str. destruct s; reflexivity.
Qed.

Section Ranking.

(** The score order is a total preorder, as SQLite's order on values is. *)
Hypothesis float_leb_total :
  forall x y, float_leb x y = true \/ float_leb y x = true.
Hypothesis float_leb_trans :
  forall x y z, float_leb x y = true -> float_leb y z = true ->
                float_leb x z = true.






End Ranking.

(** For an id other than the empty string the pivot is left out. *)
Lemma similar_by_id_excludes_pivot (w w' : World) (cid : Z) (i : string)
    (number : Z) (entries : list Entry.t) :
  i <> "" ->
  _id (self w) = Some cid ->
  similar_by_id i number w = (Ok entries, w') ->
  ~ In i (map Entry.id entries).
Proof.
  intros Hi Hid Hrun Hin.
  cbv [similar_by_id bind] in Hrun. rewrite (id_cached _ _ Hid) in Hrun.
  cbv [read storage raise] in Hrun.
  destruct (Storage.rows_where_id cid i (db w)) as [|first rest]; [discriminate|].
  apply (similar_by_vector_ok
           {| self := self w; db := db w;
              log := log w ++ [SelectEmbedding cid i] |} _ cid _ _ _ _ Hid)
    in Hrun.
  destruct Hrun as (_ & -> & _).
  apply in_map_iff in Hin. destruct Hin as (e & He & Hin).
  apply in_map_iff in Hin. destruct Hin as ([r sc] & <- & Hin).
  apply in_select_similar in Hin. destruct Hin as (_ & [_ Hskip] & _).
  cbn in He.
  assert (Ht : truthy (Some i) = true).
  { unfold truthy, truthy_optional, truthy, truthy_str. destruct i; congruence. }
  rewrite Ht in Hskip. exact (Hskip i eq_refl He).
Qed.

(** *** Falsy metadata *)

Lemma row_null_if_falsy (cid : Z) (store : bool) (v : list float) (item : Item) :
  row cid store v (null_if_falsy item) = row cid store v item.
Proof.
  destruct item as [[i text] [[|kv d]|]]; reflexivity.
Qed.

Lemma combine_map_r {A B C} (f : B -> C) (l : list A) (l' : list B) :
  combine l (map f l') = map (fun p => (fst p, f (snd p))) (combine l l').
Proof.
  revert l'. induction l as [|a l IH]; intros [|b l']; cbn; try reflexivity.
  rewrite IH. reflexivity.
Qed.

Lemma batch_rows_null_if_falsy (m : Model) (cid : Z) (store : bool)
    (batch : list Item) :
  batch_rows m cid store (map null_if_falsy batch) = batch_rows m cid store batch.
Proof.
  unfold batch_rows. rewrite map_map, combine_map_r, map_map.
  assert (E : map (fun x => snd (fst (null_if_falsy x))) batch
              = map (fun item => snd (fst item)) batch).
  { apply map_ext. intros [[i text] md]. reflexivity. }
  rewrite E. apply map_ext. intros [v item]. cbn. apply row_null_if_falsy.
Qed.

Lemma while_batches_null_if_falsy (fuel : nat) (bs cid : Z) (store : bool)
    (it : list Item) (w : World) :
  while_batches fuel bs cid store (map null_if_falsy it) w
  = while_batches fuel bs cid store it w.
Proof.
  revert it w. induction fuel as [|fuel IH]; intros it w; cbn [while_batches];
    [reflexivity|].
  unfold islice. destruct (bs <? 0)%Z; [reflexivity|].
  rewrite firstn_map, skipn_map.
  destruct (firstn (Z.to_nat bs) it) as [|x batch] eqn:Hb; [reflexivity|].
  cbn [map truthy truthy_list negb].
  change (null_if_falsy x :: map null_if_falsy batch)
    with (map null_if_falsy (x :: batch)).
  unfold bind. destruct (model w) as [[m|e] w1]; [|reflexivity].
  rewrite batch_rows_null_if_falsy.
  destruct (storage _ _ w1) as [[u|e] w2]; [|reflexivity].
  apply IH.
Qed.

Lemma embed_multi_null_if_falsy (fuel : nat) (entries : list Item)
    (store : bool) (w : World) :
  embed_multi_with_metadata fuel (map null_if_falsy entries) store w
  = embed_multi_with_metadata fuel entries store w.
Proof.
  unfold embed_multi_with_metadata.
  destruct (bind _ _ w) as [[[bs cid]|e] w1]; [|reflexivity].
  apply while_batches_null_if_falsy.
Qed.

(** A successful [embed] adds one row, the one built from its arguments. *)
Lemma embed_ok (w w' : World) (i text : string) (md : option Dict)
    (store : bool) :
  embed i text md store w = (Ok tt, w') ->
  exists m cid,
    embeddings (db w') =
    embeddings (db w) ++ [row cid store (EmbeddingModel.embed m text) (i, text, md)].
Proof.
  unfold embed, bind. intros H.
  pose proof (model_spec w) as Hspec.
  destruct (model w) as [[m|e] w1]; [|discriminate].
  destruct Hspec as (_ & Hdb & _).
  destruct (id w1) as [[cid|e] w2] eqn:Ei; [|discriminate].
  destruct (id_ok _ _ _ Ei) as (_ & _ & Hemb & _).
  exists m, cid. unfold storage, Storage.insert_all in H. cbn in H.
  destruct (existsb _ (embeddings (db w2))); cbn in H; inversion H; subst; cbn.
  rewrite Hemb, Hdb. reflexivity.
Qed.

End Properties.

(** * The properties on the small instance *)

Import Example Collection Notions.

(** Three entries go out as a batch of two and a batch of one; the empty
    dict of the second entry is written as a null column. *)
Example embed_multi_two_batches :
  exists w',
    embed_multi_with_metadata 4 three_entries true (world docs_db)
    = Some (Ok tt, w')
    /\ log w' =
       [InsertAll
          [{| EmbeddingRow.collection_id := 1; EmbeddingRow.id := "x";
              EmbeddingRow.embedding := [x01; x01];
              EmbeddingRow.content := Some "x"; EmbeddingRow.metadata := None |};
           {| EmbeddingRow.collection_id := 1; EmbeddingRow.id := "y";
              EmbeddingRow.embedding := [x02; x01];
              EmbeddingRow.content := Some "yy"; EmbeddingRow.metadata := None |}];
        InsertAll
          [{| EmbeddingRow.collection_id := 1; EmbeddingRow.id := "z";
              EmbeddingRow.embedding := [x03; x01];
              EmbeddingRow.content := Some "zzz";
              EmbeddingRow.metadata := Some "k" |}]]
    /\ List.length (embeddings (db w')) = 5.
Proof.
  eexists. split; [lazy; reflexivity|]. split; reflexivity.
Qed.

(** A model object and a different [model_id] are refused before any
    storage call. *)
Example mismatch_is_refused :
  new (X := toy) empty_db [] "docs" (Some pair_model) (Some "broken")
  = (Raise (ValueError "model_id does not match model.model_id"),
     fresh empty_db [] "docs" None None).
Proof.
  reflexivity.
Qed.

(** C1: on an empty database, [Collection(db, "docs", model_id="pair")]
    creates the schema, reads [collections] by name and inserts the row: the
    table is empty before and holds the row after. *)
Lemma construction_touches_storage :
  let w := snd (new (X := toy) empty_db [] "docs" None (Some "pair")) in
  Storage.table empty_db = []
  /\ log w = [TableExists; ApplyMigrations; SelectCollection "docs";
              InsertCollection "docs" "pair"]
  /\ Storage.table (db w) =
     [{| CollectionRow.id := 1; CollectionRow.name := "docs";
         CollectionRow.model := "pair" |}].
Proof.
  cbv zeta. repeat split; reflexivity.
Qed.





(** C4: an item is embedded under the empty string as its id; asked for
    the neighbours of that item, [similar_by_id] returns the item itself
    among them, the query having been issued without [id != ?]. *)
Lemma similar_by_id_returns_pivot :
  exists w1 entries w2,
    embed (X := toy) "" "ab" None false (world docs_db) = (Ok tt, w1)
    /\ similar_by_id "" 10 w1 = (Ok entries, w2)
    /\ In "" (map Entry.id entries)
    /\ log w2 = [InsertEmbedding
                   {| EmbeddingRow.collection_id := 1; EmbeddingRow.id := "";
                      EmbeddingRow.embedding := [x02; x01];
                      EmbeddingRow.content := None;
                      EmbeddingRow.metadata := None |};
                 SelectEmbedding 1 ""; RegisterFunction;
                 SelectSimilar 1 None 10].
Proof.
  eexists _, _, _. split; [lazy; reflexivity|].
  split; [lazy; reflexivity|]. split; [|reflexivity].
  cbn. right. left. reflexivity.
Qed.

(** C5 on an object whose first [id()] creates the row. *)
Lemma id_idempotent_witness :
  let w := fresh (X := toy) empty_db [] "docs" (Some pair_model) None in
  1 <= 3
  /\ exists w1,
       id w = (Ok 1%Z, w1)
       /\ id_calls 3 w = (repeat (Ok 1%Z) 3, w1)
       /\ _id (self w1) = Some 1%Z
       /\ collection_inserts (log w1) <= collection_inserts (log w) + 1.
Proof.
  cbv zeta. split; [lia|].
  eexists. split; [lazy; reflexivity|].
  apply (id_idempotent (X := toy) _ 3 ltac:(lia)). lazy; reflexivity.
Defined.

(** C6: a declared batch size of zero counts as none: the batch size is
    100, not the minimum of 100 and 0. *)
Lemma zero_batch_size_counts_as_absent :
  EmbeddingModel.batch_size zero_model = Some 0%Z
  /\ batch_size_of (X := toy) zero_model = 100%Z
  /\ declared_batch_size (X := toy) zero_model = 0%Z
  /\ batch_size_of (X := toy) zero_model
     <> declared_batch_size (X := toy) zero_model.
Proof.
  repeat split; try reflexivity. discriminate.
Qed.

(** C6 on three entries and one pair. *)
Lemma batch_size_bound_witness :
  fst (model (world docs_db)) = Ok pair_model
  /\ _id (self (world docs_db)) = Some 1%Z
  /\ List.length three_entries < 4
  /\ List.length [("p", "q")] < 4
  /\ (batch_size_of (X := toy) pair_model <= 100)%Z
  /\ exists r w' batches,
       embed_multi_with_metadata 4 three_entries true (world docs_db)
       = Some (r, w')
       /\ log w' = [] ++ map (fun b => InsertAll (batch_rows (X := toy) pair_model 1 true b))
                              batches
       /\ Forall (fun b => List.length b <= 100
                           /\ List.length (batch_rows (X := toy) pair_model 1 true b)
                              <= 100)
                 batches.
Proof.
  assert (H1 : fst (model (world docs_db)) = Ok pair_model) by reflexivity.
  assert (H2 : _id (self (world docs_db)) = Some 1%Z) by reflexivity.
  assert (H3 : List.length three_entries < 4) by (cbn; lia).
  assert (H4 : List.length [("p", "q")] < 4) by (cbn; lia).
  repeat (split; [assumption|]).
  destruct (batch_size_bound (world docs_db) pair_model 1%Z three_entries
              [("p", "q")] true 4 H1 H2 H3 H4)
    as (_ & Hle & Hrun & _).
  split; [exact Hle|exact Hrun].
Defined.


(** C8 on an id the collection does not hold. *)
Lemma similar_by_id_not_found_witness :
  _id (self (world docs_db)) = Some 1%Z
  /\ (forall r, In r (embeddings (db (world docs_db))) ->
                EmbeddingRow.collection_id r = 1%Z ->
                EmbeddingRow.id r <> "zz")
  /\ similar_by_id (X := toy) "zz" 10 (world docs_db) =
     (Raise (ValueError "ID not found"),
      {| self := docs; db := docs_db; log := [SelectEmbedding 1 "zz"] |}).
Proof.
  assert (H : forall r, In r (embeddings (db (world docs_db))) ->
                        EmbeddingRow.collection_id r = 1%Z ->
                        EmbeddingRow.id r <> "zz").
  { intros r [<-|[<-|[]]] _; discriminate. }
  split; [reflexivity|]. split; [exact H|].
  exact (similar_by_id_not_found (X := toy) (world docs_db) 1%Z "zz" 10
           eq_refl H).
Defined.

(** C10: the model ["broken"] declares a batch size of -1; that is the
    batch size computed, and the call raises at its first slice. *)
Lemma negative_batch_size_raises :
  batch_size_of (X := toy) broken_model = (-1)%Z
  /\ ~ (1 <= batch_size_of (X := toy) broken_model)%Z
  /\ exists msg,
       embed_multi_with_metadata 2 [("a", "x", None)] false broken_world
       = Some (Raise (ValueError msg), broken_world).
Proof.
  split; [reflexivity|]. split; [cbn; lia|].
  eexists. lazy. reflexivity.
Qed.

(** C10 on three entries. *)
Lemma embed_multi_with_metadata_terminates_witness :
  List.length three_entries < 4
  /\ exists r w',
       embed_multi_with_metadata 4 three_entries true (world docs_db)
       = Some (r, w').
Proof.
  assert (H : List.length three_entries < 4) by (cbn; lia).
  split; [exact H|].
  exact (proj1 (embed_multi_with_metadata_terminates (X := toy)
                  (world docs_db) three_entries true 4 H)).
Defined.

(** * Further properties of the class *)

Section Coverage.
Context {X : Externals}.

(** *** [model()] *)

(** [model()] never touches the storage, the cached id, the name or the
    model id.  Once it has returned a model, that model is cached and every
    later call returns it from the cache; when it raises, nothing at all has
    changed, so that a later call raises the same error. *)
Theorem model_settles (w : World) :
  let r := fst (model w) in
  let w1 := snd (model w) in
  db w1 = db w /\ log w1 = log w
  /\ _id (self w1) = _id (self w) /\ name (self w1) = name (self w)
  /\ _model_id (self w1) = _model_id (self w)
  /\ model w1 = (r, w1)
  /\ (forall m, r = Ok m -> _model (self w1) = Some m)
  /\ (forall e, r = Raise e -> w1 = w /\ _model (self w) = None).
Proof.
  cbv zeta. unfold model, bind, get, ret, raise, set_self, modify.
  destruct w as [[n mo mi i] d l]; cbn.
  destruct mo as [m|]; cbn.
  - repeat split; intros; auto; try discriminate;
             try (match goal with H : Ok _ = Ok _ |- _ => inversion H; reflexivity end).
  - destruct mi as [mid|]; cbn.
    + destruct (truthy mid) eqn:Ht; cbn.
      * destruct (get_embedding_model mid) as [m|] eqn:Hg; cbn.
        -- repeat split; intros; auto; try discriminate;
             try (match goal with H : Ok _ = Ok _ |- _ => inversion H; reflexivity end).
        -- rewrite Ht; cbn. rewrite Hg.
           repeat split; intros; auto; try discriminate;
             try (match goal with H : Ok _ = Ok _ |- _ => inversion H; reflexivity end).
      * rewrite Ht; cbn. repeat split; intros; auto; try discriminate;
             try (match goal with H : Ok _ = Ok _ |- _ => inversion H; reflexivity end).
    + repeat split; intros; auto; try discriminate;
             try (match goal with H : Ok _ = Ok _ |- _ => inversion H; reflexivity end).
Qed.

(** *** Construction *)

(** The three ways the constructor's [id()] can end. *)
Lemma new_outcomes (d : Database) (l : list Event) (n : string)
    (mo : option Model) (mi : option string) :
  mismatch mo mi = false ->
  let w0 := fresh d l n mo mi in
  (exists r rest,
      Storage.rows_where_name n d = r :: rest
      /\ new d l n mo mi =
         (Ok tt,
          {| self := {| name := n; _model := mo;
                        _model_id := match mi with
                                     | None => Some (CollectionRow.model r)
                                     | Some mid => Some mid
                                     end;
                        _id := Some (CollectionRow.id r) |};
             db := d; log := l ++ lookup_calls w0 |}))
  \/ (exists m w1,
        Storage.rows_where_name n d = [] /\ model w0 = (Ok m, w1)
        /\ new d l n mo mi =
           (Ok tt,
            {| self := {| name := n; _model := Some m; _model_id := mi;
                          _id := Some (Storage.next_rowid (Storage.table d)) |};
               db := {| collections :=
                          Some (Storage.table d ++
                                [{| CollectionRow.id :=
                                      Storage.next_rowid (Storage.table d);
                                    CollectionRow.name := n;
                                    CollectionRow.model :=
                                      EmbeddingModel.model_id m |}]);
                        embeddings := embeddings d |};
               log := l ++ lookup_calls w0
                      ++ [InsertCollection n (EmbeddingModel.model_id m)] |}))
  \/ (exists e w1,
        Storage.rows_where_name n d = [] /\ model w0 = (Raise e, w1)
        /\ new d l n mo mi =
           (Raise e,
            {| self := self w0; db := Storage.apply_migrations d;
               log := l ++ lookup_calls w0 |})).
Proof.
  intros Hmis w0. rewrite (new_valid _ _ _ _ _ Hmis). fold w0.
  assert (Hid : _id (self w0) = None) by reflexivity.
  destruct (Storage.rows_where_name n d) as [|r rest] eqn:Hr.
  - destruct (model w0) as [[m|e] w1] eqn:Em.
    + right. left. exists m, w1. repeat split; auto.
      rewrite (id_created w0 w1 m Hid Hr Em). reflexivity.
    + right. right. exists e, w1. repeat split; auto.
      rewrite (id_no_model w0 w1 e Hid Hr Em). reflexivity.
  - left. exists r, rest. split; [reflexivity|].
    rewrite (id_found w0 r rest Hid Hr). reflexivity.
Qed.

Lemma filter_name_in (n : string) (rows : list CollectionRow.t) :
  filter (fun r => String.eqb (CollectionRow.name r) n) rows = [] ->
  ~ In n (map CollectionRow.name rows).
Proof.
  induction rows as [|r rows IH]; cbn; [tauto|].
  destruct (String.eqb_spec (CollectionRow.name r) n) as [E|E]; [discriminate|].
  intros H [H1|H1]; [contradiction|]. exact (IH H H1).
Qed.

Lemma fold_max_ge (xs : list Z) (a : Z) :
  (a <= fold_left Z.max xs a)%Z
  /\ forall x, In x xs -> (x <= fold_left Z.max xs a)%Z.
Proof.
  revert a. induction xs as [|y xs IH]; intros a; cbn.
  - split; [lia|tauto].
  - destruct (IH (Z.max a y)) as [H1 H2]. split; [lia|].
    intros x [<-|Hx]; [lia|auto].
Qed.

(** The rowid of a new row is above every id in use. *)
Lemma next_rowid_fresh (rows : list CollectionRow.t) (r : CollectionRow.t) :
  In r rows -> (CollectionRow.id r < Storage.next_rowid rows)%Z.
Proof.
  destruct rows as [|r0 rows]; [intros []|].
  unfold Storage.next_rowid.
  destruct (fold_max_ge (map CollectionRow.id rows) (CollectionRow.id r0))
    as [H1 H2].
  intros [<-|Hin]; [lia|].
  specialize (H2 _ (in_map CollectionRow.id _ _ Hin)). lia.
Qed.

(** A successful construction leaves the object linked to its row. *)
Lemma new_linked (d : Database) (l : list Event) (n : string)
    (mo : option Model) (mi : option string) (w : World) :
  new d l n mo mi = (Ok tt, w) ->
  name (self w) = n /\ exists cid, linked w cid.
Proof.
  intros H. destruct (mismatch mo mi) eqn:Hmis.
  { rewrite (new_mismatch _ _ _ _ _ Hmis) in H. discriminate. }
  destruct (new_outcomes d l n mo mi Hmis)
    as [(r & rest & Hr & E)|[(m & w1 & Hr & Em & E)|(e & w1 & _ & _ & E)]];
    rewrite E in H; inversion H; subst w; clear H; cbn.
  - split; [reflexivity|]. exists (CollectionRow.id r).
    split; [reflexivity|]. exists r, rest. cbn. auto.
  - split; [reflexivity|]. exists (Storage.next_rowid (Storage.table d)).
    split; [reflexivity|].
    exists {| CollectionRow.id := Storage.next_rowid (Storage.table d);
              CollectionRow.name := n;
              CollectionRow.model := EmbeddingModel.model_id m |}, [].
    split; [|reflexivity].
    unfold Storage.rows_where_name in *.
    cbn [self db name Storage.table collections].
    rewrite filter_app, Hr. cbn. rewrite String.eqb_refl. reflexivity.
Qed.

(** X2.  Opening a collection that exists with an explicit [model_id]
    succeeds and keeps that [model_id], whatever model the stored row
    names: the row's model is adopted only when no [model_id] is given, and
    is never compared with the caller's.  The row's id is cached and
    storage is left as it was. *)
Theorem explicit_model_id_is_kept (d : Database) (l : list Event) (n : string)
    (mo : option Model) (mid : string)
    (row : CollectionRow.t) (rest : list CollectionRow.t) :
  mismatch mo (Some mid) = false ->
  Storage.rows_where_name n d = row :: rest ->
  exists w,
    new d l n mo (Some mid) = (Ok tt, w)
    /\ _model_id (self w) = Some mid
    /\ _model (self w) = mo
    /\ _id (self w) = Some (CollectionRow.id row)
    /\ db w = d.
Proof.
  intros Hmis Hr.
  rewrite (new_valid _ _ _ _ _ Hmis).
  rewrite (id_found (fresh d l n mo (Some mid)) row rest eq_refl Hr).
  eexists. split; [reflexivity|]. cbn. auto.
Qed.

(** X3.  Constructing a collection that does not exist yet without a usable
    model raises [ValueError]: "No model_id specified" when no model object
    is given and [model_id] is [None] or empty, and the other message when
    the registry does not know the [model_id].  No row is inserted and the
    id stays unresolved; the only trace in storage is the schema, created on
    the way if it was missing. *)
Theorem construction_needs_a_model (d : Database) (l : list Event)
    (n : string) (mi : option string) :
  Storage.rows_where_name n d = [] ->
  let failed :=
    {| self := {| name := n; _model := None; _model_id := mi; _id := None |};
       db := Storage.apply_migrations d;
       log := l ++ lookup_calls (fresh d l n None mi) |} in
  (truthy mi = false ->
   new d l n None mi = (Raise (ValueError "No model_id specified"), failed))
  /\ (forall mid,
        mi = Some mid -> truthy mid = true -> get_embedding_model mid = None ->
        new d l n None mi =
        (Raise (ValueError
                  "No model_id specified and no model found with that name"),
         failed))
  /\ Storage.table (Storage.apply_migrations d) = Storage.table d
  /\ embeddings (Storage.apply_migrations d) = embeddings d.
Proof.
  intros Hr failed.
  assert (Hmis : mismatch None mi = false) by reflexivity.
  assert (Hid : _id (self (fresh d l n None mi)) = None) by reflexivity.
  split; [|split].
  - intros Ht. rewrite (new_valid _ _ _ _ _ Hmis).
    assert (Em : model (fresh d l n None mi)
                 = (Raise (ValueError "No model_id specified"),
                    fresh d l n None mi)).
    { unfold model, bind, get, raise, fresh; cbn. rewrite Ht. reflexivity. }
    rewrite (id_no_model _ _ _ Hid Hr Em). reflexivity.
  - intros mid -> Ht Hg. rewrite (new_valid _ _ _ _ _ Hmis).
    assert (Em : model (fresh d l n None (Some mid))
                 = (Raise (ValueError
                      "No model_id specified and no model found with that name"),
                    fresh d l n None (Some mid))).
    { unfold model, bind, get, raise, fresh; cbn.
      change (truthy (Some mid)) with (truthy mid). rewrite Ht; cbn.
      rewrite Hg. reflexivity. }
    rewrite (id_no_model _ _ _ Hid Hr Em). reflexivity.
  - destruct d as [[rows|] em]; split; reflexivity.
Qed.

(** X4.  Whatever its outcome, construction leaves the [embeddings] table
    alone and keeps every row of [collections], adding at most one at the
    end; and when no two rows shared a name or an id before, none do
    after. *)
Theorem construction_keeps_tables (d : Database) (l : list Event) (n : string)
    (mo : option Model) (mi : option string) :
  let w := snd (new d l n mo mi) in
  embeddings (db w) = embeddings d
  /\ (exists added,
        Storage.table (db w) = Storage.table d ++ added
        /\ List.length added <= 1)
  /\ (unique_collections d -> unique_collections (db w)).
Proof.
  cbv zeta.
  assert (Htab : Storage.table (Storage.apply_migrations d) = Storage.table d
                 /\ embeddings (Storage.apply_migrations d) = embeddings d).
  { destruct d as [[rows|] em]; split; reflexivity. }
  destruct (mismatch mo mi) eqn:Hmis.
  { rewrite (new_mismatch _ _ _ _ _ Hmis). cbn.
    split; [reflexivity|]. split; [|tauto].
    exists []. rewrite app_nil_r. auto. }
  destruct (new_outcomes d l n mo mi Hmis)
    as [(r & rest & Hr & E)|[(m & w1 & Hr & Em & E)|(e & w1 & Hr & Em & E)]];
    rewrite E; cbn.
  - split; [reflexivity|]. split; [|tauto].
    exists []. rewrite app_nil_r. auto.
  - split; [reflexivity|]. split.
    { exists [{| CollectionRow.id := Storage.next_rowid (Storage.table d);
                 CollectionRow.name := n;
                 CollectionRow.model := EmbeddingModel.model_id m |}].
      split; [reflexivity|cbn; lia]. }
    unfold unique_collections. cbn [Storage.table collections].
    intros [Hn Hi]. rewrite !map_app. cbn. split.
    + apply NoDup_app; [exact Hn|repeat constructor; tauto|].
      intros a Ha [<-|[]]. exact (filter_name_in _ _ Hr Ha).
    + apply NoDup_app; [exact Hi|repeat constructor; tauto|].
      intros a Ha [<-|[]]. apply in_map_iff in Ha.
      destruct Ha as (r & Er & Hin).
      pose proof (next_rowid_fresh _ _ Hin). lia.
  - destruct Htab as [Ht He]. split; [exact He|]. split.
    + exists []. rewrite app_nil_r. auto.
    + unfold unique_collections. rewrite Ht. tauto.
Qed.

(** X5.  Once a collection has been constructed, constructing another
    object of the same name on the resulting database (with no [model_id],
    and whatever model object) finds the row: it caches the same id, inserts
    nothing and leaves storage as it was. *)
Theorem reopening_shares_the_id (d : Database) (l l' : list Event)
    (n : string) (mo mo' : option Model) (mi : option string) (w1 : World) :
  new d l n mo mi = (Ok tt, w1) ->
  exists w2,
    new (db w1) l' n mo' None = (Ok tt, w2)
    /\ _id (self w2) = _id (self w1)
    /\ db w2 = db w1
    /\ collection_inserts (log w2) = collection_inserts l'.
Proof.
  intros H. destruct (new_linked _ _ _ _ _ _ H) as (Hn & cid & Hid & r & rest & Hr & Hc).
  rewrite Hn in Hr.
  assert (Hmis : mismatch mo' None = false) by (destruct mo'; reflexivity).
  rewrite (new_valid _ _ _ _ _ Hmis).
  rewrite (id_found (fresh (db w1) l' n mo' None) r rest eq_refl Hr).
  eexists. split; [reflexivity|]. cbn. rewrite Hid, Hc.
  repeat split; auto.
  unfold collection_inserts, lookup_calls. rewrite filter_app, length_app. cbn.
  destruct (Storage.table_exists (db w1)); cbn; lia.
Qed.

(** *** [exists()] and [count()] *)

(** X6.  [exists()] answers whether [collections] holds a row of the
    object's name, and fails with [OperationalError] while the schema is
    missing; on every object that construction has built it answers
    [True]. *)
Theorem exists_after_construction (w : World) :
  (forall rows,
      collections (db w) = Some rows ->
      exists b,
        exists_ w = Storage.Rows b
        /\ (b = true <->
            exists r, In r rows /\ CollectionRow.name r = name (self w)))
  /\ (collections (db w) = None ->
      exists_ w = Storage.OperationalError "no such table: collections")
  /\ (forall d l n mo mi,
        new d l n mo mi = (Ok tt, w) -> exists_ w = Storage.Rows true).
Proof.
  unfold exists_, Storage.select_one_where_name. split; [|split].
  - intros rows ->. eexists. split; [reflexivity|].
    set (f := fun r => String.eqb (CollectionRow.name r) (name (self w))).
    destruct (filter f rows) as [|r rest] eqn:E; cbn; split;
      try discriminate; try reflexivity.
    + intros (r & Hin & Hname).
      assert (Hf : In r (filter f rows)).
      { apply filter_In. split; [exact Hin|]. apply String.eqb_eq. exact Hname. }
      rewrite E in Hf. destruct Hf.
    + intros _.
      assert (Hin : In r (filter f rows)) by (rewrite E; left; reflexivity).
      apply filter_In in Hin. destruct Hin as [Hin Hf].
      exists r. split; [exact Hin|]. apply String.eqb_eq. exact Hf.
  - intros ->. reflexivity.
  - intros d l n mo mi H.
    destruct (new_linked _ _ _ _ _ _ H) as (_ & cid & _ & r & rest & Hr & _).
    unfold Storage.rows_where_name, Storage.table in Hr.
    destruct (collections (db w)) as [rows|]; [|discriminate].
    rewrite Hr. reflexivity.
Qed.

Lemma count_linked (w : World) (cid : Z) :
  linked w cid ->
  count w = Storage.Rows (Z.of_nat (List.length (items_of cid (db w)))).
Proof.
  unfold count, Storage.select_count.
  intros (_ & r & rest & Hr & <-).
  unfold Storage.rows_where_name, Storage.table in Hr.
  destruct (collections (db w)) as [rows|]; [|discriminate].
  rewrite Hr. reflexivity.
Qed.

(** X7.  On an object linked to its row, [count()] is the number of items
    stored under the cached id, although it looks the collection up by name;
    for a name that no row bears it is 0. *)
Theorem count_of_collection (w : World) :
  (forall cid,
      linked w cid ->
      count w = Storage.Rows (Z.of_nat (List.length (items_of cid (db w)))))
  /\ (forall rows,
        collections (db w) = Some rows ->
        Storage.rows_where_name (name (self w)) (db w) = [] ->
        count w = Storage.Rows 0%Z).
Proof.
  split; [exact (count_linked w)|].
  unfold count, Storage.select_count, Storage.rows_where_name, Storage.table.
  intros rows -> Hr. rewrite Hr. reflexivity.
Qed.

(** *** [embed] *)

(** What a call of [embed] does on an object whose id is resolved. *)
Lemma embed_run (w : World) (cid : Z) (i text : string) (md : option Dict)
    (store : bool) :
  _id (self w) = Some cid ->
  match model w with
  | (Raise e, w1) => embed i text md store w = (Raise e, w) /\ w1 = w
  | (Ok m, w1) =>
      let r := row cid store (EmbeddingModel.embed m text) (i, text, md) in
      if existsb (Storage.same_key r) (embeddings (db w))
      then embed i text md store w =
           (Raise IntegrityError,
            {| self := self w1; db := db w;
               log := log w ++ [InsertEmbedding r] |})
      else embed i text md store w =
           (Ok tt,
            {| self := self w1;
               db := {| collections := collections (db w);
                        embeddings := embeddings (db w) ++ [r] |};
               log := log w ++ [InsertEmbedding r] |})
  end.
Proof.
  intros Hid. unfold embed, bind.
  pose proof (model_spec w) as Hspec.
  destruct (model w) as [[m|e] w1]; [|subst; auto].
  destruct Hspec as (_ & Hdb & Hlog & Hid1 & _). rewrite Hid in Hid1.
  rewrite (id_cached _ _ Hid1). cbv zeta.
  unfold storage, Storage.insert_all. cbn [Storage.insert_rows].
  rewrite Hdb, Hlog.
  destruct (existsb _ (embeddings (db w))); reflexivity.
Qed.

Lemma same_key_spec (r r' : EmbeddingRow.t) :
  Storage.same_key r r' = true <->
  EmbeddingRow.collection_id r = EmbeddingRow.collection_id r'
  /\ EmbeddingRow.id r = EmbeddingRow.id r'.
Proof.
  unfold Storage.same_key. rewrite andb_true_iff, Z.eqb_eq, String.eqb_eq.
  tauto.
Qed.

Lemma items_of_app_one (cid : Z) (c : option (list CollectionRow.t))
    (em : list EmbeddingRow.t) (r : EmbeddingRow.t) :
  EmbeddingRow.collection_id r = cid ->
  List.length (items_of cid {| collections := c; embeddings := em ++ [r] |})
  = S (List.length (items_of cid {| collections := c; embeddings := em |})).
Proof.
  intros H. unfold items_of. cbn. rewrite filter_app, length_app. cbn.
  rewrite H, Z.eqb_refl. cbn. lia.
Qed.

(** X8.  A successful [embed] on a constructed collection appends exactly
    one row to [embeddings]: under the cached collection id and the given
    id, with the encoding of the model's vector for the text, the text
    itself only when [store] is set, and leaves [collections] alone.  No
    item of that id was in the collection before, and [count()] goes up by
    one. *)
Theorem embed_adds_one_row (w w' : World) (cid : Z) (i text : string)
    (md : option Dict) (store : bool) :
  linked w cid ->
  embed i text md store w = (Ok tt, w') ->
  exists m r,
    fst (model w) = Ok m
    /\ embeddings (db w') = embeddings (db w) ++ [r]
    /\ collections (db w') = collections (db w)
    /\ EmbeddingRow.collection_id r = cid
    /\ EmbeddingRow.id r = i
    /\ EmbeddingRow.embedding r = encode (EmbeddingModel.embed m text)
    /\ EmbeddingRow.content r = (if store then Some text else None)
    /\ (forall r0, In r0 (embeddings (db w)) ->
                   EmbeddingRow.collection_id r0 = cid ->
                   EmbeddingRow.id r0 <> i)
    /\ linked w' cid
    /\ (forall k, count w = Storage.Rows k -> count w' = Storage.Rows (k + 1)%Z).
Proof.
  intros Hl H. pose proof Hl as (Hid & r0 & rest & Hr & Hc).
  pose proof (embed_run w cid i text md store Hid) as Hrun.
  pose proof (model_spec w) as Hspec.
  destruct (model w) as [[m|e] w1]; [|destruct Hrun as [E _]; congruence].
  destruct Hspec as (_ & _ & _ & Hid1 & Hname & _). cbv zeta in Hrun.
  set (r := row cid store (EmbeddingModel.embed m text) (i, text, md)) in *.
  destruct (existsb (Storage.same_key r) (embeddings (db w))) eqn:Hex;
    rewrite Hrun in H; inversion H; subst w'; clear H Hrun.
  assert (Hl' : linked
                  {| self := self w1;
                     db := {| collections := collections (db w);
                              embeddings := embeddings (db w) ++ [r] |};
                     log := log w ++ [InsertEmbedding r] |} cid).
  { split; cbn; [congruence|]. exists r0, rest. rewrite Hname.
    split; [exact Hr|exact Hc]. }
  exists m, r. cbn [fst db embeddings collections].
  do 7 (split; [reflexivity|]). split; [|split; [exact Hl'|]].
  - intros r1 Hin Hcid Hi.
    assert (Hk : Storage.same_key r r1 = true).
    { apply same_key_spec. cbn. auto. }
    assert (Ht : existsb (Storage.same_key r) (embeddings (db w)) = true).
    { apply existsb_exists. exists r1. auto. }
    congruence.
  - intros k Hk. rewrite (count_linked _ _ Hl) in Hk. inversion Hk; subst k.
    rewrite (count_linked _ _ Hl'). cbn [db].
    rewrite (items_of_app_one cid _ _ r eq_refl).
    destruct (db w) as [c em]; cbn. f_equal. lia.
Qed.

(** X9.  [embed] is all or nothing on a constructed collection: when it
    raises, the database is exactly as before.  It raises [ValueError]
    without a storage call when no model resolves, and [IntegrityError]
    when the collection already holds an item of that id; with a model and
    no such item it succeeds. *)
Theorem embed_is_all_or_nothing (w : World) (cid : Z) (i text : string)
    (md : option Dict) (store : bool) :
  _id (self w) = Some cid ->
  let out := embed i text md store w in
  (forall e, fst out = Raise e -> db (snd out) = db w)
  /\ (forall e, fst (model w) = Raise e -> out = (Raise e, w))
  /\ (forall m, fst (model w) = Ok m ->
        ((exists r0, In r0 (embeddings (db w))
                     /\ EmbeddingRow.collection_id r0 = cid
                     /\ EmbeddingRow.id r0 = i)
         -> fst out = Raise IntegrityError)
        /\ ((forall r0, In r0 (embeddings (db w)) ->
                        EmbeddingRow.collection_id r0 = cid ->
                        EmbeddingRow.id r0 <> i)
            -> fst out = Ok tt)).
Proof.
  intros Hid out. subst out.
  pose proof (embed_run w cid i text md store Hid) as Hrun.
  destruct (model w) as [[m|e] w1]; cbn [fst].
  - cbv zeta in Hrun.
    set (r := row cid store (EmbeddingModel.embed m text) (i, text, md)) in *.
    destruct (existsb (Storage.same_key r) (embeddings (db w))) eqn:Hex;
      rewrite Hrun; cbn; (split; [|split]); try discriminate; auto.
    + intros m0 _. split; [reflexivity|].
      intros Hno. apply existsb_exists in Hex. destruct Hex as (r0 & Hin & Hk).
      apply same_key_spec in Hk. cbn in Hk. destruct Hk as [Hc Hi].
      exfalso. exact (Hno r0 Hin (eq_sym Hc) (eq_sym Hi)).
    + intros m0 _. split; [|reflexivity].
      intros (r0 & Hin & Hc & Hi).
      assert (Ht : existsb (Storage.same_key r) (embeddings (db w)) = true).
      { apply existsb_exists. exists r0. split; [exact Hin|].
        apply same_key_spec. cbn. auto. }
      congruence.
  - destruct Hrun as [E _]. rewrite E. cbn.
    split; [reflexivity|]. split; [intros e0 He; congruence|discriminate].
Qed.

Lemma existsb_false {A} (f : A -> bool) (l : list A) (x : A) :
  existsb f l = false -> In x l -> f x = false.
Proof.
  induction l as [|y l IH]; cbn; [tauto|].
  intros H [<-|Hin]; apply orb_false_iff in H; destruct H; auto.
Qed.

(** After a successful [embed], the only item of that id in the collection
    is the row just written. *)
Lemma rows_where_id_after_embed (cid : Z) (i : string) (r : EmbeddingRow.t)
    (em : list EmbeddingRow.t) (c : option (list CollectionRow.t)) :
  EmbeddingRow.collection_id r = cid -> EmbeddingRow.id r = i ->
  existsb (Storage.same_key r) em = false ->
  Storage.rows_where_id cid i {| collections := c; embeddings := em ++ [r] |}
  = [r].
Proof.
  intros Hc Hi Hex. unfold Storage.rows_where_id. cbn [embeddings].
  rewrite filter_app. cbn. rewrite Hc, Hi, Z.eqb_refl, String.eqb_refl. cbn.
  rewrite filter_nil; [reflexivity|].
  intros x Hin. pose proof (existsb_false _ _ _ Hex Hin) as Hk.
  unfold Storage.same_key in Hk. rewrite Hc, Hi in Hk.
  rewrite Z.eqb_sym, String.eqb_sym. exact Hk.
Qed.

(** X10.  An item that [embed] has just stored is found by
    [similar_by_id]: for a [number] that fits 64 bits the call does not
    raise "ID not found" but returns, after the lookup, the registration of
    the scoring function and one similarity query, and leaves the database
    alone.  Every entry returned is an item of the collection, scored
    against the decoding of the blob just stored, and none of them is the
    item itself unless its id is the empty string. *)
Theorem embedded_item_is_found (w w' : World) (cid : Z) (i text : string)
    (md : option Dict) (store : bool) (number : Z) :
  _id (self w) = Some cid ->
  (- 2 ^ 63 <= number < 2 ^ 63)%Z ->
  embed i text md store w = (Ok tt, w') ->
  exists m entries w2,
    fst (model w) = Ok m
    /\ similar_by_id i number w' = (Ok entries, w2)
    /\ db w2 = db w'
    /\ log w2 =
       log w' ++ [SelectEmbedding cid i; RegisterFunction;
                  SelectSimilar cid (if truthy i then Some i else None) number]
    /\ (forall e, In e entries ->
        exists r,
          In r (embeddings (db w'))
          /\ EmbeddingRow.collection_id r = cid
          /\ Entry.id e = EmbeddingRow.id r
          /\ Entry.score e =
             Some (cosine_similarity
                     (decode (EmbeddingRow.embedding r))
                     (decode (encode (EmbeddingModel.embed m text)))))
    /\ (i <> "" -> forall e, In e entries -> Entry.id e <> i).
Proof.
  intros Hid Hnum H.
  pose proof (embed_run w cid i text md store Hid) as Hrun.
  pose proof (model_spec w) as Hspec.
  destruct (model w) as [[m|e] w1]; [|destruct Hrun as [E _]; congruence].
  destruct Hspec as (_ & _ & _ & Hid1 & _). rewrite Hid in Hid1.
  cbv zeta in Hrun.
  set (r := row cid store (EmbeddingModel.embed m text) (i, text, md)) in *.
  destruct (existsb (Storage.same_key r) (embeddings (db w))) eqn:Hex;
    rewrite Hrun in H; inversion H; subst w'; clear H Hrun.
  assert (Hin64 : Storage.int64 number = true).
  { unfold Storage.int64. apply andb_true_iff.
    rewrite Z.leb_le, Z.ltb_lt. exact Hnum. }
  exists m. cbv [similar_by_id bind].
  match goal with
  | |- context [id ?w3] => rewrite (id_cached w3 cid Hid1)
  end.
  cbv [read storage]. cbn [db self log].
  rewrite (rows_where_id_after_embed cid i r _ _ eq_refl eq_refl Hex).
  match goal with
  | |- context [similar_by_vector _ _ _ ?w3] =>
      rewrite (similar_by_vector_run w3 cid _ _ _ Hid1)
  end.
  rewrite Hin64. cbn [db self log].
  eexists _, _. split; [reflexivity|]. split; [reflexivity|].
  split; [reflexivity|]. split; [rewrite <- app_assoc; reflexivity|].
  change (truthy (Some i)) with (truthy i).
  split.
  - intros e He. apply in_map_iff in He. destruct He as ([r1 sc] & <- & Hin).
    apply in_select_similar in Hin. destruct Hin as (Hin & [Hc _] & ->).
    exists r1. repeat split; auto.
  - intros Hi e He Hid_e.
    apply in_map_iff in He. destruct He as ([r1 sc] & <- & Hin).
    apply in_select_similar in Hin. destruct Hin as (_ & [_ Hskip] & _).
    assert (Ht : truthy i = true).
    { unfold truthy, truthy_str. destruct i; congruence. }
    rewrite Ht in Hskip. exact (Hskip i eq_refl Hid_e).
Qed.

(** X11.  Metadata survives the way through storage.  After a successful
    [embed] with a non-empty dict (which [json.dumps] turns into a non-empty
    text), every entry of that id that a later [similar_by_vector] returns
    carries the metadata read back from its serialisation, the text when
    [store] was set and no content otherwise, and the score of the stored
    vector. *)
Theorem embedded_item_comes_back (w w' : World) (cid : Z) (i text : string)
    (d : Dict) (store : bool) :
  _id (self w) = Some cid ->
  d <> [] ->
  json_dumps d <> "" ->
  embed i text (Some d) store w = (Ok tt, w') ->
  exists m,
    fst (model w) = Ok m
    /\ forall vector number skip_id entries w2 e,
        similar_by_vector vector number skip_id w' = (Ok entries, w2) ->
        In e entries -> Entry.id e = i ->
        Entry.metadata e = Some (json_loads (json_dumps d))
        /\ Entry.content e = (if store then Some text else None)
        /\ Entry.score e =
           Some (cosine_similarity
                   (decode (encode (EmbeddingModel.embed m text))) vector).
Proof.
  intros Hid Hd Hj H.
  pose proof (embed_run w cid i text (Some d) store Hid) as Hrun.
  pose proof (model_spec w) as Hspec.
  destruct (model w) as [[m|e0] w1]; [|destruct Hrun as [E _]; congruence].
  destruct Hspec as (_ & _ & _ & Hid1 & _). rewrite Hid in Hid1.
  cbv zeta in Hrun.
  set (r := row cid store (EmbeddingModel.embed m text) (i, text, Some d)) in *.
  destruct (existsb (Storage.same_key r) (embeddings (db w))) eqn:Hex;
    rewrite Hrun in H; inversion H; subst w'; clear H Hrun.
  exists m. split; [reflexivity|].
  intros vector number skip_id entries w2 e Hq He Hi.
  match type of Hq with
  | similar_by_vector _ _ _ ?w3 = _ =>
      apply (similar_by_vector_ok w3 _ cid _ _ _ _ Hid1) in Hq
  end.
  destruct Hq as (_ & -> & _).
  apply in_map_iff in He. destruct He as ([r1 sc] & <- & Hin).
  apply in_select_similar in Hin. destruct Hin as (Hin & [Hc _] & ->).
  cbn in Hi. cbn [db embeddings] in Hin. apply in_app_or in Hin.
  assert (r1 = r) as ->.
  { destruct Hin as [Hin|[<-|[]]]; [|reflexivity].
    pose proof (existsb_false _ _ _ Hex Hin) as Hk.
    assert (Ht : Storage.same_key r r1 = true).
    { apply same_key_spec. cbn. auto. }
    congruence. }
  assert (Htd : truthy d = true) by (destruct d; [contradiction|reflexivity]).
  assert (Htj : truthy (json_dumps d) = true).
  { unfold truthy, truthy_str. destruct (json_dumps d); [contradiction|reflexivity]. }
  split; [|split; reflexivity].
  rewrite entry_of_metadata. subst r. cbn.
  change (truthy (Some d)) with (truthy d). rewrite Htd, Htj. reflexivity.
Qed.

(** *** The searches *)

(** X12.  On a constructed collection the three searches never write: the
    database is the same after [similar_by_vector], [similar_by_id] and
    [similar] as before, whatever they return or raise, and the cached id
    stays. *)
Theorem searches_never_write (w : World) (cid : Z) :
  _id (self w) = Some cid ->
  (forall vector number skip_id,
      db (snd (similar_by_vector vector number skip_id w)) = db w
      /\ self (snd (similar_by_vector vector number skip_id w)) = self w)
  /\ (forall i number,
        db (snd (similar_by_id i number w)) = db w
        /\ self (snd (similar_by_id i number w)) = self w)
  /\ (forall text number,
        db (snd (similar text number w)) = db w
        /\ _id (self (snd (similar text number w))) = Some cid).
Proof.
  intros Hid. split; [|split].
  - intros. rewrite (similar_by_vector_run _ cid _ _ _ Hid). cbn. auto.
  - intros i number. cbv [similar_by_id bind].
    rewrite (id_cached _ cid Hid). cbv [read storage raise].
    destruct (Storage.rows_where_id cid i (db w)) as [|first rest]; [cbn; auto|].
    match goal with
    | |- context [similar_by_vector _ _ _ ?w3] =>
        rewrite (similar_by_vector_run w3 cid _ _ _ Hid)
    end.
    cbn. auto.
  - intros text number. cbv [similar bind].
    pose proof (model_spec w) as Hspec.
    destruct (model w) as [[m|e] w1]; [|subst; cbn; auto].
    destruct Hspec as (_ & Hdb & _ & Hid1 & _). rewrite Hid in Hid1.
    rewrite (similar_by_vector_run _ cid _ _ _ Hid1). cbn. auto.
Qed.

(** *** The bulk write path *)

Lemma slices_length {A} (k n : nat) (l : list A) :
  List.length (slices k n l) = k.
Proof.
  revert l. induction k as [|k IH]; intros l; cbn; [reflexivity|].
  rewrite IH. reflexivity.
Qed.

Lemma slices_nth {A} (k n : nat) (l : list A) (j : nat) :
  j < k -> nth j (slices k n l) [] = firstn n (skipn (j * n) l).
Proof.
  revert l j. induction k as [|k IH]; intros l j Hj; [lia|].
  destruct j as [|j]; cbn [slices nth]; [reflexivity|].
  rewrite IH by lia. rewrite skipn_skipn. f_equal. f_equal. cbn. lia.
Qed.

Lemma firstn_plus {A} (n k : nat) (l : list A) :
  firstn (n + k) l = firstn n l ++ firstn k (skipn n l).
Proof.
  revert l. induction n as [|n IH]; intros [|x l]; cbn;
    try reflexivity; [now rewrite firstn_nil|].
  rewrite IH. reflexivity.
Qed.

Lemma slices_concat {A} (k n : nat) (l : list A) :
  List.concat (slices k n l) = firstn (k * n) l.
Proof.
  revert l. induction k as [|k IH]; intros l; cbn [slices List.concat];
    [reflexivity|].
  rewrite IH. replace (S k * n) with (n + k * n) by lia.
  symmetry. apply firstn_plus.
Qed.

Lemma chunks_nil {A} (n : nat) : 1 <= n -> chunks n ([] : list A) = [].
Proof.
  intros Hn. unfold chunks. cbn [List.length].
  rewrite Nat.div_small by lia. reflexivity.
Qed.

Lemma chunks_cons {A} (n : nat) (l : list A) :
  1 <= n -> l <> [] ->
  chunks n l = firstn n l :: chunks n (skipn n l).
Proof.
  intros Hn Hl. unfold chunks. rewrite length_skipn.
  assert (Hlen : 1 <= List.length l).
  { destruct l; [contradiction|cbn; lia]. }
  assert (E : (List.length l + n - 1) / n
              = S ((List.length l - n + n - 1) / n)).
  { destruct (Nat.le_gt_cases n (List.length l)) as [Hle|Hgt].
    - replace (List.length l + n - 1) with (List.length l - 1 + 1 * n) by lia.
      rewrite Nat.div_add by lia.
      replace (List.length l - n + n - 1) with (List.length l - 1) by lia. lia.
    - replace (List.length l - n + n - 1) with (n - 1) by lia.
      rewrite (Nat.div_small (n - 1) n) by lia.
      symmetry. apply (Nat.div_unique _ _ _ (List.length l - 1)); lia. }
  rewrite E. reflexivity.
Qed.

Lemma chunks_concat {A} (n : nat) (l : list A) :
  1 <= n -> List.concat (chunks n l) = l.
Proof.
  intros Hn. unfold chunks. rewrite slices_concat. apply firstn_all2.
  pose proof (Nat.div_mod_eq (List.length l + n - 1) n).
  pose proof (Nat.mod_upper_bound (List.length l + n - 1) n ltac:(lia)).
  nia.
Qed.

(** A loop that ends normally has written the chunks of the iterator, one
    [insert_all] each. *)
Lemma while_batches_ok (m : Model) (cid : Z) (store : bool) (bs : Z) :
  (1 <= bs)%Z ->
  forall (fuel : nat) (it : list Item) (w w' : World),
    _model (self w) = Some m ->
    while_batches fuel bs cid store it w = Some (Ok tt, w') ->
    self w' = self w
    /\ collections (db w') = collections (db w)
    /\ embeddings (db w') =
       embeddings (db w)
       ++ List.concat (map (batch_rows m cid store) (chunks (Z.to_nat bs) it))
    /\ log w' =
       log w ++ map (fun b => InsertAll (batch_rows m cid store b))
                    (chunks (Z.to_nat bs) it).
Proof.
  intros Hbs. assert (Hn : 1 <= Z.to_nat bs) by lia.
  induction fuel as [|fuel IH]; intros it w w' Hm H; [discriminate|].
  cbn [while_batches] in H. unfold islice in H.
  destruct (Z.ltb_spec bs 0) as [Hneg|_]; [lia|].
  destruct (firstn (Z.to_nat bs) it) as [|x batch'] eqn:Hb.
  - assert (it = []) as ->.
    { destruct it as [|y it]; [reflexivity|].
      destruct (Z.to_nat bs); [lia|discriminate]. }
    cbn in H. inversion H; subst w'. rewrite chunks_nil by exact Hn.
    cbn. rewrite !app_nil_r. auto.
  - cbn [truthy truthy_list negb] in H.
    assert (Hne : it <> []) by (intros ->; rewrite firstn_nil in Hb; discriminate).
    rewrite (chunks_cons _ _ Hn Hne), Hb.
    unfold bind in H. rewrite (model_cached _ _ Hm) in H.
    unfold storage, Storage.insert_all in H. cbv zeta in H.
    destruct (Storage.insert_rows _ (embeddings (db w))) as [tbl|] eqn:Hins;
      cbv beta iota in H; [|discriminate].
    apply insert_rows_some in Hins. subst tbl.
    apply IH in H; [|exact Hm].
    destruct H as (Hself & Hcol & Hemb & Hlog).
    cbn in Hself, Hcol, Hemb, Hlog. cbn [map List.concat].
    rewrite Hemb, Hlog, <- !app_assoc. auto.
Qed.

(** X13.  When the model's batch size is absent, zero or positive and the
    call returns normally, [embed_multi_with_metadata] has handed the
    entries to [insert_all] in consecutive slices of the batch size: slice
    [j] is [entries[j*n : (j+1)*n]], so every batch but the last is full
    and there are [ceil(len(entries) / n)] calls; the table gained the rows
    of these slices, in order. *)
Theorem bulk_write_goes_in_slices (w w' : World) (m : Model) (cid : Z)
    (entries : list Item) (store : bool) (fuel : nat) :
  fst (model w) = Ok m ->
  _id (self w) = Some cid ->
  (forall k, EmbeddingModel.batch_size m = Some k -> (0 <= k)%Z) ->
  embed_multi_with_metadata fuel entries store w = Some (Ok tt, w') ->
  let n := Z.to_nat (batch_size_of m) in
  let batches := chunks n entries in
  log w' = log w ++ map (fun b => InsertAll (batch_rows m cid store b)) batches
  /\ embeddings (db w') =
     embeddings (db w) ++ List.concat (map (batch_rows m cid store) batches)
  /\ List.concat batches = entries
  /\ List.length batches = (List.length entries + n - 1) / n
  /\ forall j, j < List.length batches ->
       nth j batches [] = firstn n (skipn (j * n) entries).
Proof.
  intros Hm Hid Hk H n batches.
  pose proof (batch_size_of_positive m Hk) as Hbs.
  assert (Hn : 1 <= n) by (unfold n; lia).
  pose proof (model_spec w) as Hspec.
  destruct (model w) as [[m'|e] w1] eqn:Em; cbn in Hm; [|discriminate].
  inversion Hm; subst m'.
  destruct Hspec as (Hm1 & Hdb & Hlog & Hid1 & _). rewrite Hid in Hid1.
  unfold embed_multi_with_metadata, bind in H.
  rewrite Em, (id_cached _ _ Hid1) in H. cbv [ret] in H.
  destruct (while_batches_ok m cid store _ Hbs _ _ _ _ Hm1 H)
    as (_ & _ & Hemb & Hlg).
  fold n in Hemb, Hlg. fold batches in Hemb, Hlg.
  rewrite Hdb in Hemb. rewrite Hlog in Hlg.
  split; [exact Hlg|]. split; [exact Hemb|].
  split; [apply chunks_concat; exact Hn|].
  unfold batches, chunks. rewrite slices_length.
  split; [reflexivity|]. intros j Hj. apply slices_nth. exact Hj.
Qed.

(** Every row of a batch is built from one of its items. *)
Lemma in_batch_rows (m : Model) (cid : Z) (store : bool) (batch : list Item)
    (r : EmbeddingRow.t) :
  In r (batch_rows m cid store batch) ->
  exists v item,
    In item batch /\ r = row cid store v item
    /\ EmbeddingRow.collection_id r = cid
    /\ EmbeddingRow.id r = fst (fst item)
    /\ EmbeddingRow.content r = (if store then Some (snd (fst item)) else None).
Proof.
  unfold batch_rows. intros H. apply in_map_iff in H.
  destruct H as ([v item] & <- & Hin). apply in_combine_r in Hin.
  exists v, item. destruct item as [[i text] md]. cbn. auto.
Qed.

(** X14.  Whatever the outcome of [embed_multi_with_metadata] on a
    constructed collection, [collections] is untouched and [embeddings] only
    grows at its end, by rows that each come from one of the entries: under
    the collection's cached id, with that entry's id, and with that entry's
    text as content exactly when [store] is set.  Through [embed_multi] the
    rows moreover have null metadata. *)
Theorem bulk_rows_come_from_entries (w : World) (m : Model) (cid : Z)
    (entries : list Item) (pairs : list (string * string))
    (store : bool) (fuel : nat) :
  fst (model w) = Ok m ->
  _id (self w) = Some cid ->
  List.length entries < fuel ->
  List.length pairs < fuel ->
  (exists r w' added,
      embed_multi_with_metadata fuel entries store w = Some (r, w')
      /\ collections (db w') = collections (db w)
      /\ embeddings (db w') = embeddings (db w) ++ added
      /\ Forall (fun row =>
                   exists v item,
                     In item entries /\ row = Collection.row cid store v item
                     /\ EmbeddingRow.collection_id row = cid
                     /\ EmbeddingRow.id row = fst (fst item)
                     /\ EmbeddingRow.content row
                        = (if store then Some (snd (fst item)) else None))
                added)
  /\ (exists r w' added,
        embed_multi fuel pairs store w = Some (r, w')
        /\ collections (db w') = collections (db w)
        /\ embeddings (db w') = embeddings (db w) ++ added
        /\ Forall (fun row =>
                     EmbeddingRow.metadata row = None
                     /\ EmbeddingRow.collection_id row = cid
                     /\ exists i text,
                         In (i, text) pairs /\ EmbeddingRow.id row = i
                         /\ EmbeddingRow.content row
                            = (if store then Some text else None))
                  added).
Proof.
  intros Hm Hid Hlen Hlen'.
  assert (Hgen : forall items, List.length items < fuel ->
    exists r w' added,
      embed_multi_with_metadata fuel items store w = Some (r, w')
      /\ collections (db w') = collections (db w)
      /\ embeddings (db w') = embeddings (db w) ++ added
      /\ Forall (fun row =>
                   exists v item,
                     In item items /\ row = Collection.row cid store v item
                     /\ EmbeddingRow.collection_id row = cid
                     /\ EmbeddingRow.id row = fst (fst item)
                     /\ EmbeddingRow.content row
                        = (if store then Some (snd (fst item)) else None))
                added).
  { intros items Hitems.
    destruct (embed_multi_with_metadata_run w m cid items store fuel Hm Hid Hitems)
      as (r & w' & done & failed & rest & Hrun & Hit & _ & _ & Hcol & Hemb & _).
    exists r, w', (List.concat (map (batch_rows m cid store) done)).
    repeat split; auto.
    apply Forall_forall. intros row Hrow.
    apply in_concat in Hrow. destruct Hrow as (rows & Hrows & Hrow).
    apply in_map_iff in Hrows. destruct Hrows as (b & <- & Hb).
    destruct (in_batch_rows _ _ _ _ _ Hrow) as (v & item & Hitem & Hfields).
    exists v, item. split; [|exact Hfields].
    rewrite Hit. apply in_or_app. left. apply in_concat. exists b. auto. }
  split; [apply Hgen; exact Hlen|].
  unfold embed_multi.
  destruct (Hgen (map (fun e => (fst e, snd e, None)) pairs))
    as (r & w' & added & Hrun & Hcol & Hemb & Hall);
    [rewrite length_map; exact Hlen'|].
  exists r, w', added. repeat split; auto.
  eapply Forall_impl; [|exact Hall]. cbn.
  intros row (v & item & Hitem & -> & Hc & Hi & Hcont).
  apply in_map_iff in Hitem. destruct Hitem as ([i text] & <- & Hin).
  cbn in *. repeat split; auto. exists i, text. auto.
Qed.

Lemma map_snd_combine {A B C} (f : B -> C) (l : list A) (l' : list B) :
  List.length l = List.length l' ->
  map (fun p => f (snd p)) (combine l l') = map f l'.
Proof.
  revert l'. induction l as [|a l IH]; intros [|b l'] H; cbn in *;
    try discriminate; [reflexivity|].
  rewrite IH by lia. reflexivity.
Qed.

Lemma batch_rows_ids (m : Model) (cid : Z) (store : bool) (batch : list Item) :
  List.length (EmbeddingModel.embed_multi m
                 (map (fun item => snd (fst item)) batch))
  = List.length batch ->
  map EmbeddingRow.id (batch_rows m cid store batch)
  = map (fun item => fst (fst item)) batch.
Proof.
  intros H. unfold batch_rows. cbv zeta. rewrite map_map.
  etransitivity;
    [|exact (map_snd_combine (fun item : Item => fst (fst item)) _ _ H)].
  apply map_ext. intros [v [[i text] md]]. reflexivity.
Qed.

Lemma filter_all {A} (f : A -> bool) (l : list A) :
  Forall (fun x => f x = true) l -> filter f l = l.
Proof.
  induction 1 as [|x l Hx Hl IH]; cbn; [reflexivity|].
  rewrite Hx, IH. reflexivity.
Qed.

(** X15.  With a model that answers [embed_multi] with one vector per text
    and a batch size that is absent, zero or positive, a call of
    [embed_multi_with_metadata] that returns normally has added one row per
    entry, in the order of the entries and under their ids, whatever the
    batch boundaries; the object stays linked to its row and [count()] has
    grown by the number of entries. *)
Theorem bulk_write_adds_every_entry (w w' : World) (m : Model) (cid : Z)
    (entries : list Item) (store : bool) (fuel : nat) :
  fst (model w) = Ok m ->
  linked w cid ->
  (forall k, EmbeddingModel.batch_size m = Some k -> (0 <= k)%Z) ->
  (forall texts,
      List.length (EmbeddingModel.embed_multi m texts) = List.length texts) ->
  embed_multi_with_metadata fuel entries store w = Some (Ok tt, w') ->
  exists added,
    embeddings (db w') = embeddings (db w) ++ added
    /\ map EmbeddingRow.id added = map (fun item => fst (fst item)) entries
    /\ Forall (fun row => EmbeddingRow.collection_id row = cid) added
    /\ linked w' cid
    /\ (forall k, count w = Storage.Rows k ->
                  count w' = Storage.Rows (k + Z.of_nat (List.length entries))%Z).
Proof.
  intros Hm Hl Hk Halign H. pose proof Hl as (Hid & r0 & rest & Hr & Hc).
  pose proof (batch_size_of_positive m Hk) as Hbs.
  set (n := Z.to_nat (batch_size_of m)).
  assert (Hn : 1 <= n) by (unfold n; lia).
  pose proof (model_spec w) as Hspec.
  destruct (model w) as [[m'|e] w1] eqn:Em; cbn in Hm; [|discriminate].
  inversion Hm; subst m'.
  destruct Hspec as (Hm1 & Hdb & Hlog & Hid1 & Hname & _).
  unfold embed_multi_with_metadata, bind in H.
  rewrite Hid in Hid1. rewrite Em, (id_cached _ _ Hid1) in H. cbv [ret] in H.
  destruct (while_batches_ok m cid store _ Hbs _ _ _ _ Hm1 H)
    as (Hself & Hcol & Hemb & _).
  fold n in Hemb. rewrite Hdb in Hemb, Hcol.
  set (added := List.concat (map (batch_rows m cid store) (chunks n entries)))
    in *.
  assert (Hids : map EmbeddingRow.id added
                 = map (fun item => fst (fst item)) entries).
  { unfold added. rewrite concat_map, map_map.
    rewrite <- (chunks_concat n entries Hn) at 2.
    rewrite concat_map. f_equal. apply map_ext. intros b.
    apply batch_rows_ids. rewrite Halign, length_map. reflexivity. }
  assert (Hcid : Forall (fun row => EmbeddingRow.collection_id row = cid) added).
  { apply Forall_forall. intros row Hrow. unfold added in Hrow.
    apply in_concat in Hrow. destruct Hrow as (rows & Hrows & Hrow).
    apply in_map_iff in Hrows. destruct Hrows as (b & <- & _).
    destruct (in_batch_rows _ _ _ _ _ Hrow) as (v & item & _ & _ & Hcc & _).
    exact Hcc. }
  assert (Hl' : linked w' cid).
  { split; [rewrite Hself; exact Hid1|]. exists r0, rest.
    rewrite Hself, Hname. split; [|exact Hc].
    unfold Storage.rows_where_name, Storage.table in *. rewrite Hcol. exact Hr. }
  exists added. do 4 (split; [assumption|]).
  intros k Hcount. rewrite (count_linked _ _ Hl) in Hcount.
  inversion Hcount; subst k. rewrite (count_linked _ _ Hl').
  unfold items_of. rewrite Hemb, filter_app, length_app.
  rewrite (filter_all _ added).
  - assert (List.length added = List.length entries).
    { rewrite <- (length_map EmbeddingRow.id), Hids, length_map. reflexivity. }
    f_equal. lia.
  - eapply Forall_impl; [|exact Hcid]. cbn. intros row ->. apply Z.eqb_refl.
Qed.

End Coverage.

(** * The further properties on the small instance *)

Lemma docs_linked : linked (world docs_db) 1%Z.
Proof.
  split; [reflexivity|].
  exists {| CollectionRow.id := 1; CollectionRow.name := "docs";
            CollectionRow.model := "pair" |}, [].
  split; reflexivity.
Defined.

(** X2: ["docs"] was created with the model ["pair"]; opened with
    [model_id="broken"] it keeps ["broken"]. *)
Lemma explicit_model_id_is_kept_witness :
  mismatch (X := toy) None (Some "broken") = false
  /\ Storage.rows_where_name "docs" docs_db =
     [{| CollectionRow.id := 1; CollectionRow.name := "docs";
         CollectionRow.model := "pair" |}]
  /\ exists w,
       new (X := toy) docs_db [] "docs" None (Some "broken") = (Ok tt, w)
       /\ _model_id (self w) = Some "broken"
       /\ _model (self w) = None
       /\ _id (self w) = Some 1%Z
       /\ db w = docs_db.
Proof.
  split; [reflexivity|]. split; [reflexivity|].
  exact (explicit_model_id_is_kept (X := toy) docs_db [] "docs" None "broken"
           {| CollectionRow.id := 1; CollectionRow.name := "docs";
              CollectionRow.model := "pair" |} [] eq_refl eq_refl).
Defined.

(** X3 on an empty database, with neither model nor [model_id]. *)
Lemma construction_needs_a_model_witness :
  Storage.rows_where_name "docs" empty_db = []
  /\ new (X := toy) empty_db [] "docs" None None =
     (Raise (ValueError "No model_id specified"),
      {| self := {| name := "docs"; _model := None; _model_id := None;
                    _id := None |};
         db := {| collections := Some []; embeddings := [] |};
         log := [TableExists; ApplyMigrations; SelectCollection "docs"] |}).
Proof.
  split; [reflexivity|].
  exact (proj1 (construction_needs_a_model (X := toy) empty_db [] "docs" None
                  eq_refl) eq_refl).
Defined.

(** X5: a collection is created on an empty database, then opened again. *)
Lemma reopening_shares_the_id_witness :
  let w1 := snd (new (X := toy) empty_db [] "docs" (Some pair_model) None) in
  new (X := toy) empty_db [] "docs" (Some pair_model) None = (Ok tt, w1)
  /\ exists w2,
       new (X := toy) (db w1) [] "docs" None None = (Ok tt, w2)
       /\ _id (self w2) = _id (self w1)
       /\ db w2 = db w1
       /\ collection_inserts (log w2) = collection_inserts [].
Proof.
  cbv zeta.
  assert (H : new (X := toy) empty_db [] "docs" (Some pair_model) None
              = (Ok tt, snd (new (X := toy) empty_db [] "docs"
                               (Some pair_model) None))) by reflexivity.
  split; [exact H|].
  exact (reopening_shares_the_id (X := toy) empty_db [] [] "docs"
           (Some pair_model) None None _ H).
Defined.

(** X8: a third item is embedded into ["docs"]. *)
Lemma embed_adds_one_row_witness :
  let w' := snd (embed (X := toy) "c" "cc" None true (world docs_db)) in
  linked (world docs_db) 1%Z
  /\ embed (X := toy) "c" "cc" None true (world docs_db) = (Ok tt, w')
  /\ count (world docs_db) = Storage.Rows 2%Z
  /\ count w' = Storage.Rows 3%Z.
Proof.
  cbv zeta.
  assert (H : embed (X := toy) "c" "cc" None true (world docs_db)
              = (Ok tt, snd (embed (X := toy) "c" "cc" None true
                               (world docs_db)))) by reflexivity.
  split; [exact docs_linked|]. split; [exact H|]. split; [reflexivity|].
  destruct (embed_adds_one_row (X := toy) _ _ 1%Z "c" "cc" None true
              docs_linked H)
    as (m & r & _ & _ & _ & _ & _ & _ & _ & _ & _ & Hcount).
  exact (Hcount 2%Z eq_refl).
Defined.

(** X9: the id ["a"] is taken in ["docs"]. *)
Lemma embed_is_all_or_nothing_witness :
  _id (self (world docs_db)) = Some 1%Z
  /\ fst (embed (X := toy) "a" "again" None false (world docs_db))
     = Raise IntegrityError
  /\ db (snd (embed (X := toy) "a" "again" None false (world docs_db)))
     = docs_db.
Proof.
  split; [reflexivity|].
  destruct (embed_is_all_or_nothing (X := toy) (world docs_db) 1%Z
              "a" "again" None false eq_refl)
    as (Hkeep & _ & Hdup).
  assert (E : fst (embed (X := toy) "a" "again" None false (world docs_db))
              = Raise IntegrityError).
  { apply (Hdup pair_model eq_refl).
    exists {| EmbeddingRow.collection_id := 1; EmbeddingRow.id := "a";
              EmbeddingRow.embedding := [x01; x01];
              EmbeddingRow.content := None; EmbeddingRow.metadata := None |}.
    split; [left; reflexivity|]. split; reflexivity. }
  split; [exact E|]. exact (Hkeep _ E).
Defined.

(** X10: the item just embedded is looked up; its neighbours ["b"] and
    ["a"] come back, not the item itself. *)
Lemma embedded_item_is_found_witness :
  let w' := snd (embed (X := toy) "c" "cc" None true (world docs_db)) in
  _id (self (world docs_db)) = Some 1%Z
  /\ (- 2 ^ 63 <= 10 < 2 ^ 63)%Z
  /\ embed (X := toy) "c" "cc" None true (world docs_db) = (Ok tt, w')
  /\ exists entries w2,
       similar_by_id "c" 10 w' = (Ok entries, w2)
       /\ db w2 = db w'
       /\ map Entry.id entries = ["b"; "a"].
Proof.
  cbv zeta.
  assert (H : embed (X := toy) "c" "cc" None true (world docs_db)
              = (Ok tt, snd (embed (X := toy) "c" "cc" None true
                               (world docs_db)))) by reflexivity.
  assert (Hr : (- 2 ^ 63 <= 10 < 2 ^ 63)%Z) by (cbn; lia).
  split; [reflexivity|]. split; [exact Hr|]. split; [exact H|].
  destruct (embedded_item_is_found (X := toy) (world docs_db) _ 1%Z "c" "cc"
              None true 10 eq_refl Hr H)
    as (m & entries & w2 & _ & Hrun & Hdb & _).
  exists entries, w2. split; [exact Hrun|]. split; [exact Hdb|].
  assert (E : fst (similar_by_id "c" 10
                     (snd (embed (X := toy) "c" "cc" None true (world docs_db))))
              = Ok entries) by (rewrite Hrun; reflexivity).
  lazy in E. inversion E. reflexivity.
Defined.

(** X11: an item is embedded with the metadata [{"k": 1}] and asked
    back. *)
Lemma embedded_item_comes_back_witness :
  let d := [("k", PyInt 1)] in
  let w' := snd (embed (X := toy) "c" "cc" (Some d) true (world docs_db)) in
  _id (self (world docs_db)) = Some 1%Z
  /\ d <> []
  /\ json_dumps (Externals := toy) d <> ""
  /\ embed (X := toy) "c" "cc" (Some d) true (world docs_db) = (Ok tt, w')
  /\ forall e,
       In e (match fst (similar_by_vector (X := toy) [1; 1]%Z 10 None w') with
             | Ok entries => entries
             | Raise _ => []
             end) ->
       Entry.id e = "c" ->
       Entry.metadata e = Some (json_loads (Externals := toy) "k")
       /\ Entry.content e = Some "cc".
Proof.
  cbv zeta.
  assert (H : embed (X := toy) "c" "cc" (Some [("k", PyInt 1)]) true
                (world docs_db)
              = (Ok tt, snd (embed (X := toy) "c" "cc"
                               (Some [("k", PyInt 1)]) true (world docs_db))))
    by reflexivity.
  assert (Hd : [("k", PyInt 1)] <> ([] : Dict)) by discriminate.
  assert (Hj : json_dumps (Externals := toy) [("k", PyInt 1)] <> "")
    by discriminate.
  split; [reflexivity|]. split; [exact Hd|]. split; [exact Hj|].
  split; [exact H|].
  destruct (embedded_item_comes_back (X := toy) (world docs_db) _ 1%Z "c" "cc"
              [("k", PyInt 1)] true eq_refl Hd Hj H) as (m & _ & Hback).
  intros e He Hi.
  destruct (similar_by_vector (X := toy) [1; 1]%Z 10 None
              (snd (embed (X := toy) "c" "cc" (Some [("k", PyInt 1)]) true
                      (world docs_db)))) as [[entries|err] w2] eqn:Hq;
    cbn in He; [|destruct He].
  destruct (Hback _ _ _ _ _ e Hq He Hi) as (Hmeta & Hcont & _).
  split; [exact Hmeta|exact Hcont].
Defined.

(** X12 on the stored collection. *)
Lemma searches_never_write_witness :
  _id (self (world docs_db)) = Some 1%Z
  /\ db (snd (similar_by_id (X := toy) "a" 10 (world docs_db))) = docs_db
  /\ db (snd (similar (X := toy) "query" 10 (world docs_db))) = docs_db.
Proof.
  split; [reflexivity|].
  destruct (searches_never_write (X := toy) (world docs_db) 1%Z eq_refl)
    as (_ & Hid & Htext).
  split; [exact (proj1 (Hid "a" 10%Z))|exact (proj1 (Htext "query" 10%Z))].
Defined.

(** X13: three entries with batches of two make two slices. *)
Lemma bulk_write_goes_in_slices_witness :
  let w' := match embed_multi_with_metadata 4 three_entries true (world docs_db)
            with
            | Some (_, w') => w'
            | None => world docs_db
            end in
  fst (model (world docs_db)) = Ok pair_model
  /\ _id (self (world docs_db)) = Some 1%Z
  /\ (forall k, EmbeddingModel.batch_size pair_model = Some k -> (0 <= k)%Z)
  /\ embed_multi_with_metadata 4 three_entries true (world docs_db)
     = Some (Ok tt, w')
  /\ List.length (chunks 2 three_entries) = (3 + 2 - 1) / 2
  /\ List.concat (chunks 2 three_entries) = three_entries.
Proof.
  cbv zeta.
  assert (Hk : forall k, EmbeddingModel.batch_size pair_model = Some k ->
                         (0 <= k)%Z).
  { intros k E. inversion E. lia. }
  assert (H : embed_multi_with_metadata 4 three_entries true (world docs_db)
              = Some (Ok tt,
                      match embed_multi_with_metadata 4 three_entries true
                              (world docs_db) with
                      | Some (_, w') => w'
                      | None => world docs_db
                      end)) by reflexivity.
  split; [reflexivity|]. split; [reflexivity|]. split; [exact Hk|].
  split; [exact H|].
  destruct (bulk_write_goes_in_slices (X := toy) (world docs_db) _ pair_model
              1%Z three_entries true 4 eq_refl eq_refl Hk H)
    as (_ & _ & Hconcat & Hlen & _).
  split; [exact Hlen|exact Hconcat].
Defined.

(** X14 on three entries and one pair. *)
Lemma bulk_rows_come_from_entries_witness :
  fst (model (world docs_db)) = Ok pair_model
  /\ _id (self (world docs_db)) = Some 1%Z
  /\ List.length three_entries < 4
  /\ List.length [("p", "q")] < 4
  /\ exists r w' added,
       embed_multi 4 [("p", "q")] false (world docs_db) = Some (r, w')
       /\ embeddings (db w') = embeddings docs_db ++ added
       /\ Forall (fun row => EmbeddingRow.metadata row = None) added.
Proof.
  assert (H3 : List.length three_entries < 4) by (cbn; lia).
  assert (H4 : List.length [("p", "q")] < 4) by (cbn; lia).
  split; [reflexivity|]. split; [reflexivity|]. split; [exact H3|].
  split; [exact H4|].
  destruct (bulk_rows_come_from_entries (X := toy) (world docs_db) pair_model
              1%Z three_entries [("p", "q")] false 4 eq_refl eq_refl H3 H4)
    as (_ & r & w' & added & Hrun & _ & Hemb & Hall).
  exists r, w', added. split; [exact Hrun|]. split; [exact Hemb|].
  eapply Forall_impl; [|exact Hall]. cbn. tauto.
Defined.

(** X15: three entries are added to the two stored items. *)
Lemma bulk_write_adds_every_entry_witness :
  let w' := match embed_multi_with_metadata 4 three_entries true (world docs_db)
            with
            | Some (_, w') => w'
            | None => world docs_db
            end in
  fst (model (world docs_db)) = Ok pair_model
  /\ linked (world docs_db) 1%Z
  /\ (forall k, EmbeddingModel.batch_size pair_model = Some k -> (0 <= k)%Z)
  /\ (forall texts,
         List.length (EmbeddingModel.embed_multi pair_model texts)
         = List.length texts)
  /\ embed_multi_with_metadata 4 three_entries true (world docs_db)
     = Some (Ok tt, w')
  /\ count w' = Storage.Rows 5%Z.
Proof.
  cbv zeta.
  assert (Hk : forall k, EmbeddingModel.batch_size pair_model = Some k ->
                         (0 <= k)%Z).
  { intros k E. inversion E. lia. }
  assert (Ha : forall texts,
             List.length (EmbeddingModel.embed_multi pair_model texts)
             = List.length texts) by (intros; apply length_map).
  assert (H : embed_multi_with_metadata 4 three_entries true (world docs_db)
              = Some (Ok tt,
                      match embed_multi_with_metadata 4 three_entries true
                              (world docs_db) with
                      | Some (_, w') => w'
                      | None => world docs_db
                      end)) by reflexivity.
  split; [reflexivity|]. split; [exact docs_linked|]. split; [exact Hk|].
  split; [exact Ha|]. split; [exact H|].
  destruct (bulk_write_adds_every_entry (X := toy) (world docs_db) _ pair_model
              1%Z three_entries true 4 eq_refl docs_linked Hk Ha H)
    as (added & _ & _ & _ & _ & Hcount).
  exact (Hcount 2%Z eq_refl).
Defined.

(** X16: the neighbours of ["a"] are asked for. *)
Lemma similar_by_id_excludes_pivot_witness :
  "a" <> ""
  /\ _id (self (world docs_db)) = Some 1%Z
  /\ exists entries w',
       similar_by_id (X := toy) "a" 10 (world docs_db) = (Ok entries, w')
       /\ ~ In "a" (map Entry.id entries).
Proof.
  assert (Hne : "a" <> "") by discriminate.
  assert (H : similar_by_id (X := toy) "a" 10 (world docs_db)
              = (match fst (similar_by_id (X := toy) "a" 10 (world docs_db)) with
                 | Ok entries => Ok entries
                 | Raise e => Ok []
                 end,
                 snd (similar_by_id (X := toy) "a" 10 (world docs_db))))
    by reflexivity.
  split; [exact Hne|]. split; [reflexivity|].
  eexists _, _. split; [exact H|].
  exact (similar_by_id_excludes_pivot (X := toy) (world docs_db) _ 1%Z "a" 10 _
           Hne eq_refl H).
Defined.

(** * The bulk write path, end to end *)

Section EndToEnd.
Context {X : Externals}.

Lemma nodup_app_disjoint {A} (l1 l2 : list A) (a : A) :
  NoDup (l1 ++ l2) -> In a l1 -> In a l2 -> False.
Proof.
  induction l1 as [|x l1 IH]; cbn; [tauto|].
  intros H [->|H1] H2; inversion H as [|? ? Hnotin Hrest]; subst.
  - apply Hnotin. apply in_or_app. right. exact H2.
  - exact (IH Hrest H1 H2).
Qed.

(** Rows of one collection with fresh, distinct ids all go in. *)
Lemma insert_rows_ok (cid : Z) (rows tbl : list EmbeddingRow.t) :
  Forall (fun r => EmbeddingRow.collection_id r = cid) rows ->
  NoDup (map EmbeddingRow.id rows) ->
  (forall r t, In r rows -> In t tbl ->
               EmbeddingRow.collection_id t = cid ->
               EmbeddingRow.id t <> EmbeddingRow.id r) ->
  Storage.insert_rows rows tbl = Some (tbl ++ rows).
Proof.
  revert tbl. induction rows as [|r rows IH]; intros tbl Hc Hn Hfresh; cbn.
  - now rewrite app_nil_r.
  - inversion Hc as [|? ? Hr Hc']; subst. inversion Hn as [|? ? Hnotin Hn']; subst.
    destruct (existsb (Storage.same_key r) tbl) eqn:Hex.
    + exfalso. apply existsb_exists in Hex. destruct Hex as (t & Ht & Hk).
      apply same_key_spec in Hk. destruct Hk as [Hk1 Hk2].
      apply (Hfresh r t (or_introl eq_refl) Ht); congruence.
    + rewrite IH; [now rewrite <- app_assoc|exact Hc'|exact Hn'|].
      intros r' t Hr' Ht Htc. apply in_app_or in Ht. destruct Ht as [Ht|[<-|[]]].
      * apply (Hfresh r' t); auto. right. exact Hr'.
      * intros E. apply Hnotin. rewrite E. apply in_map. exact Hr'.
Qed.

(** With fresh, distinct ids and an aligned model the loop runs to its
    end. *)
Lemma while_batches_succeeds (m : Model) (cid : Z) (store : bool) (bs : Z) :
  (1 <= bs)%Z ->
  (forall texts,
      List.length (EmbeddingModel.embed_multi m texts) = List.length texts) ->
  forall (fuel : nat) (it : list Item) (w : World),
    _model (self w) = Some m ->
    List.length it < fuel ->
    clash_free cid it (embeddings (db w)) ->
    exists w', while_batches fuel bs cid store it w = Some (Ok tt, w').
Proof.
  intros Hbs Halign. assert (Hn : 1 <= Z.to_nat bs) by lia.
  induction fuel as [|fuel IH]; intros it w Hm Hlen [Hnd Hfresh]; [lia|].
  cbn [while_batches]. unfold islice.
  destruct (Z.ltb_spec bs 0) as [Hneg|_]; [lia|].
  destruct (firstn (Z.to_nat bs) it) as [|x batch'] eqn:Hb.
  - cbn. eauto.
  - cbn [truthy truthy_list negb]. set (batch := x :: batch') in *.
    unfold bind. rewrite (model_cached _ _ Hm).
    unfold storage, Storage.insert_all. cbv zeta.
    pose proof (firstn_skipn (Z.to_nat bs) it) as Hsplit. rewrite Hb in Hsplit.
    assert (Hids : map EmbeddingRow.id (batch_rows m cid store batch)
                   = map (fun item : Item => fst (fst item)) batch).
    { apply batch_rows_ids. rewrite Halign, length_map. reflexivity. }
    assert (Hnd' : NoDup (map (fun item : Item => fst (fst item)) batch
                          ++ map (fun item : Item => fst (fst item))
                                 (skipn (Z.to_nat bs) it))).
    { rewrite <- map_app, Hsplit. exact Hnd. }
    assert (Hcid : Forall (fun r => EmbeddingRow.collection_id r = cid)
                          (batch_rows m cid store batch)).
    { apply Forall_forall. intros r Hr.
      destruct (in_batch_rows _ _ _ _ _ Hr) as (v & item & _ & _ & Hc & _).
      exact Hc. }
    rewrite (insert_rows_ok cid).
    + cbv beta iota. apply IH; [exact Hm| |].
      * rewrite length_skipn.
        assert (List.length it <> 0).
        { rewrite <- Hsplit, length_app. subst batch. cbn. lia. }
        lia.
      * split; [exact (NoDup_app_remove_l _ _ Hnd')|].
        cbn [db embeddings]. intros item r Hitem Hr Hc.
        apply in_app_or in Hr. destruct Hr as [Hr|Hr].
        -- apply (Hfresh item r); auto. rewrite <- Hsplit.
           apply in_or_app. right. exact Hitem.
        -- intros E. apply (nodup_app_disjoint _ _ (EmbeddingRow.id r) Hnd').
           ++ rewrite <- Hids. apply in_map. exact Hr.
           ++ rewrite E.
              exact (in_map (fun item : Item => fst (fst item)) _ _ Hitem).
    + exact Hcid.
    + rewrite Hids. exact (NoDup_app_remove_r _ _ Hnd').
    + intros r t Hr Ht Hc.
      assert (Hi : In (EmbeddingRow.id r)
                      (map (fun item : Item => fst (fst item)) batch)).
      { rewrite <- Hids. apply in_map. exact Hr. }
      apply in_map_iff in Hi. destruct Hi as (item & <- & Hitem).
      apply (Hfresh item t); auto. rewrite <- Hsplit.
      apply in_or_app. left. exact Hitem.
Qed.

Lemma combine_app_eq {A B} (l1 l2 : list A) (k1 k2 : list B) :
  List.length l1 = List.length k1 ->
  combine (l1 ++ l2) (k1 ++ k2) = combine l1 k1 ++ combine l2 k2.
Proof.
  revert k1. induction l1 as [|a l1 IH]; intros [|b k1] H; cbn in *;
    try discriminate; [reflexivity|].
  rewrite IH by lia. reflexivity.
Qed.

(** Under alignment the rows of the batches are the entries paired, one
    by one, with the vectors returned batch after batch. *)
Lemma rows_of_chunks (m : Model) (cid : Z) (store : bool) (n : nat)
    (entries : list Item) :
  1 <= n ->
  (forall texts,
      List.length (EmbeddingModel.embed_multi m texts) = List.length texts) ->
  List.concat (map (batch_rows m cid store) (chunks n entries))
  = map (fun p => row cid store (fst p) (snd p))
        (combine (vectors_of m n entries) entries)
  /\ List.length (vectors_of m n entries) = List.length entries.
Proof.
  intros Hn Halign. unfold vectors_of.
  rewrite <- (chunks_concat n entries Hn) at 3 5.
  generalize (chunks n entries). intros bs.
  induction bs as [|b bs [IH1 IH2]]; cbn; [auto|].
  assert (Hb : List.length (EmbeddingModel.embed_multi m
                              (map (fun item : Item => snd (fst item)) b))
               = List.length b) by (rewrite Halign, length_map; reflexivity).
  split.
  - rewrite (combine_app_eq _ _ _ _ Hb), map_app, <- IH1. reflexivity.
  - rewrite !length_app. f_equal; [exact Hb|exact IH2].
Qed.

(** The call, past its two first lines, is the loop. *)
Lemma embed_multi_with_metadata_loop (w : World) (m : Model) (cid : Z) :
  fst (model w) = Ok m ->
  _id (self w) = Some cid ->
  exists w1,
    _model (self w1) = Some m /\ db w1 = db w /\ log w1 = log w
    /\ forall fuel entries store,
        embed_multi_with_metadata fuel entries store w
        = while_batches fuel (batch_size_of m) cid store entries w1.
Proof.
  intros Hm Hid. pose proof (model_spec w) as Hspec.
  destruct (model w) as [[m'|e] w1] eqn:Em; cbn in Hm; [|discriminate].
  inversion Hm; subst m'.
  destruct Hspec as (Hm1 & Hdb & Hlog & Hid1 & _). rewrite Hid in Hid1.
  exists w1. repeat split; auto.
  intros fuel entries store. unfold embed_multi_with_metadata, bind.
  rewrite Em, (id_cached _ _ Hid1). reflexivity.
Qed.

(** Where entry [j] ends up in the table. *)
Lemma nth_added (cid : Z) (store : bool) (old : list EmbeddingRow.t)
    (vectors : list (list float)) (entries : list Item) (j : nat) (item : Item) :
  List.length vectors = List.length entries ->
  nth_error entries j = Some item ->
  exists v,
    nth_error vectors j = Some v
    /\ nth_error (old ++ map (fun p => row cid store (fst p) (snd p))
                             (combine vectors entries))
                 (List.length old + j)
       = Some (row cid store v item).
Proof.
  intros Hlen Hj.
  destruct (nth_error_combine_r vectors entries j item Hlen Hj) as (v & Hv & Hc).
  exists v. split; [exact Hv|].
  rewrite nth_error_app2 by lia.
  replace (List.length old + j - List.length old) with j by lia.
  rewrite nth_error_map, Hc. reflexivity.
Qed.

(** With an aligned model, a batch size that is not negative and entries
    that clash with nothing, the bulk write returns normally and the table
    has gained one row per entry, in the order of the entries. *)
Lemma bulk_success (w : World) (m : Model) (cid : Z) (entries : list Item)
    (store : bool) (fuel : nat) :
  fst (model w) = Ok m ->
  _id (self w) = Some cid ->
  (forall texts,
      List.length (EmbeddingModel.embed_multi m texts) = List.length texts) ->
  (1 <= batch_size_of m)%Z ->
  List.length entries < fuel ->
  clash_free cid entries (embeddings (db w)) ->
  exists w',
    embed_multi_with_metadata fuel entries store w = Some (Ok tt, w')
    /\ embeddings (db w') =
       embeddings (db w)
       ++ map (fun p => row cid store (fst p) (snd p))
              (combine (vectors_of m (Z.to_nat (batch_size_of m)) entries)
                       entries)
    /\ List.length (vectors_of m (Z.to_nat (batch_size_of m)) entries)
       = List.length entries.
Proof.
  intros Hm Hid Halign Hpos Hlen Hfree.
  destruct (embed_multi_with_metadata_loop w m cid Hm Hid)
    as (w1 & Hm1 & Hdb1 & _ & Hloop).
  rewrite <- Hdb1 in Hfree.
  destruct (while_batches_succeeds m cid store _ Hpos Halign fuel entries w1
              Hm1 Hlen Hfree) as (w' & Hrun).
  destruct (while_batches_ok m cid store _ Hpos fuel entries w1 w' Hm1 Hrun)
    as (_ & _ & Hemb & _).
  destruct (rows_of_chunks m cid store (Z.to_nat (batch_size_of m)) entries
              ltac:(lia) Halign) as [Hrows Hlenv].
  exists w'. rewrite Hloop. split; [exact Hrun|].
  rewrite Hemb, Hrows, Hdb1. auto.
Qed.

(** C2.  Let the model answer [embed_multi] with as many vectors as it is
    given texts, in their order.  Then [embed_multi_with_metadata] ends,
    having cut the entries, in order, into the batches it wrote ([done]), at
    most one batch whose insert the storage refused ([failed]) and the
    entries it never reached ([rest], none when it returns normally); each
    batch went to one [insert_all]; the table gained exactly the rows of the
    batches written; and in every batch the row at position [i] has the id
    of the entry at position [i] and the encoding of the vector at position
    [i] of the model's answer for that batch.  The call returns normally,
    or the storage refused a batch and then the ids of the entries clash
    with one another or with the ids stored in the collection, or the
    model declares a negative batch size; with a batch size that is not
    negative and ids that clash with nothing it returns normally.  When it
    returns normally it has issued one [insert_all] per slice of
    [batch_size] entries, the model has returned one vector per entry, the
    table is the old table followed by one row per entry, and the row of
    entry [j] sits [j] places after the old rows and holds the id of that
    entry and the encoding of vector [j]. *)
Theorem batch_alignment (w : World) (m : Model) (cid : Z)
    (entries : list Item) (store : bool) (fuel : nat) :
  fst (model w) = Ok m ->
  _id (self w) = Some cid ->
  (forall texts,
      List.length (EmbeddingModel.embed_multi m texts) = List.length texts) ->
  List.length entries < fuel ->
  exists r w' done failed rest,
    embed_multi_with_metadata fuel entries store w = Some (r, w')
    /\ entries = List.concat done ++ List.concat failed ++ rest
    /\ (r = Ok tt -> failed = [] /\ rest = [])
    /\ log w' =
       log w ++ map (fun b => InsertAll (batch_rows m cid store b))
                    (done ++ failed)
    /\ embeddings (db w') =
       embeddings (db w) ++ List.concat (map (batch_rows m cid store) done)
    /\ Forall
         (fun batch =>
            List.length (batch_rows m cid store batch) = List.length batch
            /\ forall i item,
                nth_error batch i = Some item ->
                exists v r,
                  nth_error (EmbeddingModel.embed_multi m
                               (map (fun item => snd (fst item)) batch)) i
                  = Some v
                  /\ nth_error (batch_rows m cid store batch) i = Some r
                  /\ r = row cid store v item
                  /\ EmbeddingRow.id r = fst (fst item)
                  /\ EmbeddingRow.embedding r = encode v)
         (done ++ failed)
    /\ (r = Ok tt
        \/ (r = Raise IntegrityError
            /\ ~ clash_free cid entries (embeddings (db w)))
        \/ ((batch_size_of m < 0)%Z
            /\ exists msg, r = Raise (ValueError msg)))
    /\ ((forall k, EmbeddingModel.batch_size m = Some k -> (0 <= k)%Z) ->
        clash_free cid entries (embeddings (db w)) ->
        r = Ok tt)
    /\ (r = Ok tt ->
        let vectors := vectors_of m (Z.to_nat (batch_size_of m)) entries in
        List.length vectors = List.length entries
        /\ collections (db w') = collections (db w)
        /\ log w' =
           log w ++ map (fun b => InsertAll (batch_rows m cid store b))
                        (chunks (Z.to_nat (batch_size_of m)) entries)
        /\ embeddings (db w') =
           embeddings (db w)
           ++ map (fun p => row cid store (fst p) (snd p))
                  (combine vectors entries)
        /\ forall j item,
            nth_error entries j = Some item ->
            exists v,
              nth_error vectors j = Some v
              /\ nth_error (embeddings (db w'))
                           (List.length (embeddings (db w)) + j)
                 = Some (row cid store v item)
              /\ EmbeddingRow.id (row cid store v item) = fst (fst item)
              /\ EmbeddingRow.embedding (row cid store v item) = encode v).
Proof.
  intros Hm Hid Halign Hlen.
  destruct (embed_multi_with_metadata_run w m cid entries store fuel Hm Hid Hlen)
    as (r & w' & done & failed & rest & Hrun & Hit & _ & _ & Hcol & Hemb & Hlog
        & Hok & Hcase).
  destruct (embed_multi_with_metadata_loop w m cid Hm Hid)
    as (w1 & Hm1 & Hdb1 & Hlog1 & Hloop).
  assert (Hfree : (1 <= batch_size_of m)%Z ->
                  clash_free cid entries (embeddings (db w)) -> r = Ok tt).
  { intros Hpos Hc.
    destruct (bulk_success w m cid entries store fuel Hm Hid Halign Hpos Hlen Hc)
      as (w2 & H2 & _).
    rewrite H2 in Hrun. inversion Hrun. reflexivity. }
  assert (Hneg : (batch_size_of m < 1)%Z ->
                 (batch_size_of m < 0)%Z
                 /\ exists msg, r = Raise (ValueError msg)).
  { intros Hlt.
    assert (Hlt0 : (batch_size_of m < 0)%Z)
      by (pose proof (batch_size_of_bounds m); lia).
    split; [exact Hlt0|].
    destruct fuel as [|fuel]; [lia|].
    destruct (while_batches_negative fuel _ cid store entries w1 Hlt0)
      as (msg & H2).
    rewrite Hloop, H2 in Hrun. inversion Hrun. eauto. }
  exists r, w', done, failed, rest.
  split; [exact Hrun|]. split; [exact Hit|]. split; [exact Hok|].
  split; [exact Hlog|]. split; [exact Hemb|].
  split.
  { apply Forall_forall. intros batch _.
    apply batch_rows_aligned. rewrite Halign, length_map. reflexivity. }
  split.
  { destruct Hcase as [H|[[H _]|(Hlt & _ & _ & Hmsg)]].
    - left. exact H.
    - right. left. split; [exact H|]. intros Hc.
      destruct (Z_lt_le_dec (batch_size_of m) 1) as [Hlt|Hge].
      + destruct (Hneg Hlt) as (_ & msg & E). rewrite E in H. discriminate.
      + rewrite (Hfree Hge Hc) in H. discriminate.
    - right. right. auto. }
  split.
  { intros Hnn Hc. apply Hfree; [|exact Hc].
    apply batch_size_of_positive. exact Hnn. }
  intros ->. cbv zeta.
  assert (Hpos : (1 <= batch_size_of m)%Z).
  { destruct (Z_lt_le_dec (batch_size_of m) 1) as [Hlt|Hge]; [|exact Hge].
    destruct (Hneg Hlt) as (_ & msg & E). discriminate. }
  rewrite Hloop in Hrun.
  destruct (while_batches_ok m cid store _ Hpos fuel entries w1 w' Hm1 Hrun)
    as (_ & _ & Hemb' & Hlog').
  destruct (rows_of_chunks m cid store (Z.to_nat (batch_size_of m)) entries
              ltac:(lia) Halign) as [Hrows Hlenv].
  rewrite Hrows, Hdb1 in Hemb'. rewrite Hlog1 in Hlog'.
  split; [exact Hlenv|]. split; [exact Hcol|]. split; [exact Hlog'|].
  split; [exact Hemb'|].
  intros j item Hj. rewrite Hemb'.
  destruct (nth_added cid store (embeddings (db w)) _ _ j item Hlenv Hj)
    as (v & Hv & Hnth).
  exists v. split; [exact Hv|]. split; [exact Hnth|].
  destruct item as [[i text] md]. split; reflexivity.
Qed.

(** C9.  Metadata that is [None] or an empty dict is written as a null
    column: the row built from it is the row built from [None]; [embed] and
    [embed_multi_with_metadata] behave exactly as they do with [None]
    (same outcome, same storage, same trace); a successful [embed] leaves a
    row of that id with null metadata; and every entry a later
    [similar_by_vector] returns for a row with null metadata has no
    metadata.  [embed] with an id the collection does not hold returns
    normally and the table gains one row, of that id, whose metadata column
    is null.  [embed_multi_with_metadata], with a model that answers with
    one vector per text, a batch size that is not negative and ids that
    clash with nothing, returns normally and the row it stores for an entry
    with such metadata, found as many places after the old rows as there
    are entries before it, has that id and a null metadata column. *)
Theorem falsy_metadata_stored_as_null (md : option Dict) :
  md = None \/ md = Some [] ->
  (forall cid store v i text,
      EmbeddingRow.metadata (row cid store v (i, text, md)) = None
      /\ row cid store v (i, text, md) = row cid store v (i, text, None))
  /\ (forall i text store w,
        embed i text md store w = embed i text None store w)
  /\ (forall i text store w w',
        embed i text md store w = (Ok tt, w') ->
        exists r,
          embeddings (db w') = embeddings (db w) ++ [r]
          /\ EmbeddingRow.id r = i /\ EmbeddingRow.metadata r = None)
  /\ (forall fuel before after i text store w,
        embed_multi_with_metadata fuel (before ++ (i, text, md) :: after) store w
        = embed_multi_with_metadata fuel (before ++ (i, text, None) :: after)
            store w)
  /\ (forall w cid vector number skip_id entries w',
        _id (self w) = Some cid ->
        similar_by_vector vector number skip_id w = (Ok entries, w') ->
        forall e, In e entries ->
          exists r,
            In r (embeddings (db w)) /\ Entry.id e = EmbeddingRow.id r
            /\ (EmbeddingRow.metadata r = None -> Entry.metadata e = None))
  /\ (forall w m cid i text store,
        fst (model w) = Ok m ->
        _id (self w) = Some cid ->
        (forall r, In r (embeddings (db w)) ->
                   EmbeddingRow.collection_id r = cid ->
                   EmbeddingRow.id r <> i) ->
        exists w' r,
          embed i text md store w = (Ok tt, w')
          /\ collections (db w') = collections (db w)
          /\ embeddings (db w') = embeddings (db w) ++ [r]
          /\ EmbeddingRow.collection_id r = cid
          /\ EmbeddingRow.id r = i
          /\ EmbeddingRow.embedding r = encode (EmbeddingModel.embed m text)
          /\ EmbeddingRow.metadata r = None)
  /\ (forall w m cid fuel before after i text store,
        fst (model w) = Ok m ->
        _id (self w) = Some cid ->
        (forall texts,
            List.length (EmbeddingModel.embed_multi m texts)
            = List.length texts) ->
        (forall k, EmbeddingModel.batch_size m = Some k -> (0 <= k)%Z) ->
        List.length (before ++ (i, text, md) :: after) < fuel ->
        clash_free cid (before ++ (i, text, md) :: after)
                   (embeddings (db w)) ->
        exists w' r,
          embed_multi_with_metadata fuel (before ++ (i, text, md) :: after)
            store w
          = Some (Ok tt, w')
          /\ List.length (embeddings (db w'))
             = List.length (embeddings (db w))
               + List.length (before ++ (i, text, md) :: after)
          /\ nth_error (embeddings (db w'))
                       (List.length (embeddings (db w)) + List.length before)
             = Some r
          /\ EmbeddingRow.collection_id r = cid
          /\ EmbeddingRow.id r = i
          /\ EmbeddingRow.metadata r = None).
Proof.
  intros Hmd.
  assert (Hrow : forall cid store v i text,
             EmbeddingRow.metadata (row cid store v (i, text, md)) = None
             /\ row cid store v (i, text, md) = row cid store v (i, text, None)).
  { intros. destruct Hmd as [->| ->]; split; reflexivity. }
  split; [exact Hrow|].
  split; [|split; [|split; [|split; [|split]]]].
  - intros. unfold embed. destruct Hmd as [->| ->]; reflexivity.
  - intros i text store w w' H.
    destruct (embed_ok _ _ _ _ _ _ H) as (m & cid & E).
    eexists. split; [exact E|]. split; [reflexivity|]. apply Hrow.
  - intros.
    rewrite <- (embed_multi_null_if_falsy fuel (before ++ (i, text, md) :: after)).
    rewrite <- (embed_multi_null_if_falsy fuel (before ++ (i, text, None) :: after)).
    rewrite !map_app. cbn [map].
    destruct Hmd as [->| ->]; reflexivity.
  - intros w cid vector number skip_id entries w' Hid Hrun e He.
    destruct (similar_by_vector_ok _ _ _ _ _ _ _ Hid Hrun) as (_ & -> & _).
    apply in_map_iff in He. destruct He as ([r sc] & <- & Hin).
    apply in_select_similar in Hin. destruct Hin as (Hin & _ & _).
    exists r. split; [exact Hin|]. split; [reflexivity|].
    intros Hnull. rewrite entry_of_metadata, Hnull. reflexivity.
  - intros w m cid i text store Hm Hid Hfresh.
    pose proof (embed_run w cid i text md store Hid) as Hrun.
    destruct (model w) as [[m'|e] w1]; cbn in Hm; [|discriminate].
    inversion Hm; subst m'. cbv zeta in Hrun.
    destruct (existsb _ (embeddings (db w))) eqn:Hex.
    + exfalso. apply existsb_exists in Hex. destruct Hex as (t & Ht & Hk).
      apply same_key_spec in Hk. destruct Hk as [Hk1 Hk2].
      apply (Hfresh t Ht); [rewrite <- Hk1|rewrite <- Hk2]; reflexivity.
    + eexists. eexists. split; [exact Hrun|]. cbn [db embeddings collections].
      repeat (split; [reflexivity|]). apply Hrow.
  - intros w m cid fuel before after i text store Hm Hid Halign Hnn Hlen Hfree.
    destruct (bulk_success w m cid _ store fuel Hm Hid Halign
                (batch_size_of_positive m Hnn) Hlen Hfree)
      as (w' & Hrun & Hemb & Hlenv).
    assert (Hj : nth_error (before ++ (i, text, md) :: after)
                           (List.length before) = Some (i, text, md)).
    { rewrite nth_error_app2 by lia. rewrite Nat.sub_diag. reflexivity. }
    destruct (nth_added cid store (embeddings (db w)) _ _ _ _ Hlenv Hj)
      as (v & _ & Hnth).
    exists w', (row cid store v (i, text, md)).
    split; [exact Hrun|]. rewrite Hemb. split.
    { rewrite length_app, length_map, length_combine, Hlenv.
      rewrite Nat.min_id. reflexivity. }
    split; [exact Hnth|].
    split; [reflexivity|]. split; [reflexivity|]. apply Hrow.
Qed.

End EndToEnd.

(** ** The bulk write on the small instance *)

Lemma three_entries_clash_free :
  clash_free 1%Z three_entries (embeddings docs_db).
Proof.
  split.
  - cbn. repeat constructor; cbn; intuition discriminate.
  - intros item r Hi Hr _. cbn in Hi, Hr.
    intuition (subst; discriminate).
Qed.

(** C2 on three entries and batches of two: the call returns normally and
    the three rows follow the two old ones, in the order of the entries. *)
Lemma batch_alignment_witness :
  fst (model (world docs_db)) = Ok pair_model
  /\ _id (self (world docs_db)) = Some 1%Z
  /\ (forall texts,
         List.length (EmbeddingModel.embed_multi pair_model texts)
         = List.length texts)
  /\ List.length three_entries < 4
  /\ exists w',
       embed_multi_with_metadata 4 three_entries true (world docs_db)
       = Some (Ok tt, w')
       /\ map EmbeddingRow.id (embeddings (db w'))
          = ["a"; "b"; "x"; "y"; "z"]%string
       /\ map EmbeddingRow.embedding (skipn 2 (embeddings (db w')))
          = map (fun item => encode (Externals := toy)
                               (embed_text (snd (fst item))))
                three_entries.
Proof.
  assert (H1 : fst (model (world docs_db)) = Ok pair_model) by reflexivity.
  assert (H2 : _id (self (world docs_db)) = Some 1%Z) by reflexivity.
  assert (H3 : forall texts,
             List.length (EmbeddingModel.embed_multi pair_model texts)
             = List.length texts) by (intros; apply length_map).
  assert (H4 : List.length three_entries < 4) by (cbn; lia).
  repeat (split; [assumption|]).
  destruct (batch_alignment (X := toy) (world docs_db) pair_model 1%Z
              three_entries true 4 H1 H2 H3 H4)
    as (r & w' & done & failed & rest & Hrun & _ & _ & _ & _ & _ & _ & Hfree
        & Hok).
  assert (Hr : r = Ok tt).
  { apply Hfree; [|exact three_entries_clash_free].
    intros k Hk. inversion Hk. lia. }
  subst r. destruct (Hok eq_refl) as (_ & _ & _ & Hemb & _).
  exists w'. split; [exact Hrun|]. rewrite Hemb. split; reflexivity.
Defined.

(** C9 on the empty dict: a single write and a bulk write whose second
    entry carries it. *)
Lemma falsy_metadata_stored_as_null_witness :
  ((Some [] : option Dict) = None \/ (Some [] : option Dict) = Some [])
  /\ (forall i text store (w : World (X := toy)),
         embed i text (Some []) store w = embed i text None store w)
  /\ (exists w' r,
         embed "c" "cc" (Some []) true (world docs_db) = (Ok tt, w')
         /\ embeddings (db w') = embeddings docs_db ++ [r]
         /\ EmbeddingRow.id r = "c"%string
         /\ EmbeddingRow.metadata r = None)
  /\ (exists w' r,
         embed_multi_with_metadata 4 three_entries true (world docs_db)
         = Some (Ok tt, w')
         /\ nth_error (embeddings (db w')) 3 = Some r
         /\ EmbeddingRow.id r = "y"%string
         /\ EmbeddingRow.metadata r = None).
Proof.
  split; [right; reflexivity|].
  destruct (falsy_metadata_stored_as_null (X := toy) (Some [])
              (or_intror eq_refl))
    as (_ & Hembed & _ & _ & _ & Hone & Hbulk).
  split; [exact Hembed|]. split.
  - destruct (Hone (world docs_db) pair_model 1%Z "c"%string "cc"%string true
                eq_refl eq_refl)
      as (w' & r & Hrun & _ & Hemb & _ & Hid & _ & Hmd).
    { intros r Hr _. cbn in Hr. intuition (subst; discriminate). }
    exists w', r. auto.
  - destruct (Hbulk (world docs_db) pair_model 1%Z 4
                [("x", "x", None)]%string
                [("z", "zzz", Some [("k", Py.PyInt 1)])]%string
                "y"%string "yy"%string true eq_refl eq_refl)
      as (w' & r & Hrun & _ & Hnth & _ & Hid & Hmd).
    + intros; apply length_map.
    + intros k Hk. inversion Hk. lia.
    + cbn. lia.
    + exact three_entries_clash_free.
    + exists w', r. auto.
Defined.
